(** * ARV calculator: a shallow embedding of [zillow_arv_calculator.py]

    The development follows the Python module function by function:
    the text helpers the module leans on ([int], [float], [str.split],
    [str.strip], [str.replace], [in], [re.search]), the target property
    extractor, the comp loop with its similarity filter, the median
    estimator, the search-URL literal, the page fetcher, the
    time-boxed memo and the button handler.

    Conventions.
    - A Python [str] is a Rocq [string]; its characters are read as code
      points below 256, so the classes [\d] and [\s] are the decimal
      digits and the white-space code points of that range.
    - A Python [int] is a [Z].  A Python [float] is [pyfloat]: not-a-number,
      an infinity, or the exact rational its text or arithmetic denotes;
      rounding to binary64 is not represented.
    - A call that may raise returns [result]; code that also touches the
      clock, the network, the memo or the page runs in the monad [M]. *)

From stdpp Require Import base numbers strings list gmap.
From Stdlib Require Import ZArith QArith Qabs Ascii String List Bool Lia.
From Stdlib Require Import DecimalString Lqa Sorting Permutation.
Import ListNotations.

Local Open Scope Z_scope.

(** ** Exceptions *)

Inductive exn : Type :=
| ValueError
| IndexError
| TypeError
| NameError
| SyntaxError
| RequestException
| StopException.

Inductive result (A : Type) : Type :=
| Ok (a : A)
| Raise (e : exn).
Arguments Ok {A} a.
Arguments Raise {A} e.

Definition bind {A B : Type} (c : result A) (k : A -> result B) : result B :=
  match c with
  | Ok a => k a
  | Raise e => Raise e
  end.

Notation "'let*' x ':=' c 'in' k" := (bind c (fun x => k))
  (at level 10, x name, c at level 100, k at level 200).

Definition returns {A : Type} (c : result A) : Prop := exists a, c = Ok a.

(** ** Characters and text helpers *)

Definition code (c : ascii) : N := N_of_ascii c.

(** [\d] and [str.isdigit] on code points below 256. *)
Definition is_digit (c : ascii) : bool :=
  ((48 <=? code c) && (code c <=? 57))%N.

(** [\s] and [str.isspace] on code points below 256. *)
Definition is_space (c : ascii) : bool :=
  (((9 <=? code c) && (code c <=? 13)) ||
   ((28 <=? code c) && (code c <=? 32)) ||
   (code c =? 133) || (code c =? 160))%N.

Definition digit_val (c : ascii) : Z := Z.of_N (code c) - 48.

Definition chars (s : string) : list ascii := list_ascii_of_string s.
Definition text (l : list ascii) : string := string_of_list_ascii l.

Definition ascii_eqb (a b : ascii) : bool := Ascii.eqb a b.

Fixpoint drop_while (p : ascii -> bool) (l : list ascii) : list ascii :=
  match l with
  | [] => []
  | c :: l' => if p c then drop_while p l' else l
  end.

Fixpoint take_while (p : ascii -> bool) (l : list ascii) : list ascii :=
  match l with
  | [] => []
  | c :: l' => if p c then c :: take_while p l' else []
  end.

(** [s.strip()] *)
Definition strip (l : list ascii) : list ascii :=
  rev (drop_while is_space (rev (drop_while is_space l))).

(** [s.split()[0]]: the first white-space delimited token. *)
Definition first_token (l : list ascii) : result (list ascii) :=
  match drop_while is_space l with
  | [] => Raise IndexError
  | t => Ok (take_while (fun c => negb (is_space c)) t)
  end.

(** [s.replace(',', '')] *)
Definition remove_commas (l : list ascii) : list ascii :=
  filter (fun c => negb (ascii_eqb c ","%char)) l.

Fixpoint starts_with (p l : list ascii) : bool :=
  match p, l with
  | [], _ => true
  | _ :: _, [] => false
  | a :: p', b :: l' => ascii_eqb a b && starts_with p' l'
  end.

(** [p in s] for strings. *)
Fixpoint contains (p l : list ascii) : bool :=
  starts_with p l ||
  match l with
  | [] => false
  | _ :: l' => contains p l'
  end.

(** ** [int(text)] and [float(text)] *)

(** A digit part: decimal digits, single underscores allowed between
    two digits.  Returns the digits with the underscores dropped. *)
Fixpoint digit_part_from (after_digit : bool) (l : list ascii)
  : option (list ascii) :=
  match l with
  | [] => if after_digit then Some [] else None
  | c :: l' =>
      if is_digit c then
        match digit_part_from true l' with
        | Some ds => Some (c :: ds)
        | None => None
        end
      else if ascii_eqb c "_"%char && after_digit then
        match l' with
        | d :: _ => if is_digit d then digit_part_from false l' else None
        | [] => None
        end
      else None
  end.

Definition digit_part (l : list ascii) : option (list ascii) :=
  match l with
  | [] => None
  | _ => digit_part_from false l
  end.

Definition digits_value (ds : list ascii) : Z :=
  fold_left (fun acc c => 10 * acc + digit_val c) ds 0.

Definition split_sign (l : list ascii) : bool * list ascii :=
  match l with
  | c :: l' =>
      if ascii_eqb c "-"%char then (true, l')
      else if ascii_eqb c "+"%char then (false, l')
      else (false, l)
  | [] => (false, [])
  end.

Definition py_int (l : list ascii) : result Z :=
  let (neg, body) := split_sign (strip l) in
  match digit_part body with
  | Some ds => Ok (if neg then - digits_value ds else digits_value ds)
  | None => Raise ValueError
  end.

Inductive pyfloat : Type :=
| FNan
| FInf (negative : bool)
| FFin (q : Q).

Definition lower (c : ascii) : ascii :=
  if ((65 <=? code c) && (code c <=? 90))%N
  then ascii_of_N (code c + 32) else c.

Fixpoint list_eqb (a b : list ascii) : bool :=
  match a, b with
  | [], [] => true
  | x :: a', y :: b' => ascii_eqb x y && list_eqb a' b'
  | _, _ => false
  end.

(** Splits at the first character satisfying [p]: the part before it and,
    when there is one, the part after it. *)
Fixpoint split_at (p : ascii -> bool) (l : list ascii)
  : list ascii * option (list ascii) :=
  match l with
  | [] => ([], None)
  | c :: l' =>
      if p c then ([], Some l')
      else let (a, b) := split_at p l' in (c :: a, b)
  end.

Definition optional_digits (l : list ascii) : option (list ascii) :=
  match l with
  | [] => Some []
  | _ => digit_part l
  end.

(** Mantissa [digits], [digits.], [digits.digits] or [.digits]: the digits
    read as one integer and the number of digits after the point. *)
Definition mantissa (l : list ascii) : option (Z * Z) :=
  let (ip, rest) := split_at (fun c => ascii_eqb c "."%char) l in
  let fp := match rest with Some f => f | None => [] end in
  match ip, fp with
  | [], [] => None
  | _, _ =>
      match optional_digits ip, optional_digits fp with
      | Some di, Some df =>
          Some (digits_value (di ++ df), Z.of_nat (length df))
      | _, _ => None
      end
  end.

Definition exponent (l : option (list ascii)) : option Z :=
  match l with
  | None => Some 0
  | Some e =>
      let (neg, body) := split_sign e in
      match digit_part body with
      | Some ds => Some (if neg then - digits_value ds else digits_value ds)
      | None => None
      end
  end.

Definition pow10 (e : Z) : Q :=
  if 0 <=? e then inject_Z (10 ^ e) else (1 # Z.to_pos (10 ^ (- e)))%Q.

Definition py_float (l : list ascii) : result pyfloat :=
  let (neg, body) := split_sign (strip l) in
  let low := map lower body in
  if list_eqb low (chars "inf") || list_eqb low (chars "infinity")
  then Ok (FInf neg)
  else if list_eqb low (chars "nan") then Ok FNan
  else
    let (m, e) := split_at (fun c => ascii_eqb c "e"%char) low in
    match mantissa m, exponent e with
    | Some (d, k), Some x =>
        let q := (inject_Z d * pow10 (x - k))%Q in
        Ok (FFin (if neg then Qopp q else q))
    | _, _ => Raise ValueError
    end.

(** [float(n)] for an [int] *)
Definition float_of_int (n : Z) : pyfloat := FFin (inject_Z n).

(** ** [re.search] for the patterns of the module

    A backtracking matcher in continuation style: greedy repetition,
    alternatives tried in the order Python's [re] tries them, one
    capturing group. *)

Inductive regex : Type :=
| Chr (c : ascii)
| Cls (p : ascii -> bool)
| Seq (r1 r2 : regex)
| Opt (r : regex)
| Star (r : regex)
| Grp (r : regex).

Definition Plus (r : regex) : regex := Seq r (Star r).

Fixpoint Lit (l : list ascii) : regex :=
  match l with
  | [] => Star (Cls (fun _ => false))
  | [c] => Chr c
  | c :: l' => Seq (Chr c) (Lit l')
  end.

Fixpoint Rep (n : nat) (r : regex) : regex :=
  match n with
  | O => Star (Cls (fun _ => false))
  | S O => r
  | S n' => Seq r (Rep n' r)
  end.

Section Matcher.
Context {A : Type}.

Definition capture := option (list ascii).

Fixpoint rmatch (r : regex) (s : list ascii) (cap : capture)
         (k : list ascii -> capture -> option A) {struct r} : option A :=
  match r with
  | Chr c =>
      match s with
      | c' :: s' => if ascii_eqb c c' then k s' cap else None
      | [] => None
      end
  | Cls p =>
      match s with
      | c' :: s' => if p c' then k s' cap else None
      | [] => None
      end
  | Seq r1 r2 =>
      rmatch r1 s cap (fun s' cap' => rmatch r2 s' cap' k)
  | Opt r1 =>
      match rmatch r1 s cap k with
      | Some x => Some x
      | None => k s cap
      end
  | Star r1 =>
      (fix loop (fuel : nat) (s : list ascii) (cap : capture) : option A :=
         match fuel with
         | O => k s cap
         | S fuel' =>
             match rmatch r1 s cap
                     (fun s' cap' =>
                        if (length s' <? length s)%nat
                        then loop fuel' s' cap' else None) with
             | Some x => Some x
             | None => k s cap
             end
         end) (length s) s cap
  | Grp r1 =>
      rmatch r1 s cap
        (fun s' _ => k s' (Some (firstn (length s - length s') s)))
  end.
End Matcher.

(** [re.match(r, s)]: group 1 of a match anchored at the start of [s]
    ([Some None] when the pattern matched and has no group). *)
Definition re_match (r : regex) (s : list ascii) : option capture :=
  rmatch r s None (fun _ cap => Some cap).

(** [re.search(r, s)]: the leftmost match. *)
Fixpoint re_search_from (r : regex) (s : list ascii) : option capture :=
  match re_match r s with
  | Some cap => Some cap
  | None =>
      match s with
      | [] => None
      | _ :: s' => re_search_from r s'
      end
  end.

(** [re.search(r, s).group(1)] when the search succeeds. *)
Definition re_search (r : regex) (s : string) : option (list ascii) :=
  match re_search_from r (chars s) with
  | Some (Some g) => Some g
  | Some None => Some []
  | None => None
  end.

(** ** The patterns of the module *)

Definition dq : ascii := "034"%char.

Definition digit : regex := Cls is_digit.
Definition spaces : regex := Star (Cls is_space).
Definition word (s : string) : regex := Lit (chars s).

(** The class "[\d.-]" *)
Definition is_coord_char (c : ascii) : bool :=
  is_digit c || ascii_eqb c "."%char || ascii_eqb c "-"%char.

(** The class "[\d,]" *)
Definition is_price_char (c : ascii) : bool :=
  is_digit c || ascii_eqb c ","%char.

(** "\d+(?:\.\d+)?" *)
Definition decimal_number : regex :=
  Seq (Plus digit) (Opt (Seq (Chr "."%char) (Plus digit))).

(** "\d+" followed by any number of "(?:,\d{3})" *)
Definition grouped_number : regex :=
  Seq (Plus digit) (Star (Seq (Chr ","%char) (Rep 3 digit))).

(** "(\d+(?:\.\d+)?)\s*bd" *)
Definition re_beds : regex := Seq (Grp decimal_number) (Seq spaces (word "bd")).
(** "(\d+(?:\.\d+)?)\s*ba" *)
Definition re_baths : regex := Seq (Grp decimal_number) (Seq spaces (word "ba")).
(** "(G)\s*sqft", with [grouped_number] for G *)
Definition re_sq_ft : regex := Seq (Grp grouped_number) (Seq spaces (word "sqft")).
(** "lot:\s*(G)", with [grouped_number] for G *)
Definition re_lot_size : regex := Seq (word "lot:") (Seq spaces (Grp grouped_number)).
(** "built\s*(\d{4})" *)
Definition re_year_built : regex := Seq (word "built") (Seq spaces (Grp (Rep 4 digit))).
(** The key latitude in double quotes, then ":\s*([\d.-]+)" *)
Definition re_latitude : regex :=
  Seq (Chr dq) (Seq (word "latitude") (Seq (Chr dq) (Seq (Chr ":"%char)
    (Seq spaces (Grp (Plus (Cls is_coord_char))))))).
(** The key longitude in double quotes, then ":\s*([\d.-]+)" *)
Definition re_longitude : regex :=
  Seq (Chr dq) (Seq (word "longitude") (Seq (Chr dq) (Seq (Chr ":"%char)
    (Seq spaces (Grp (Plus (Cls is_coord_char))))))).
(** "(\d+) sqft" *)
Definition re_comp_sq_ft : regex := Seq (Grp (Plus digit)) (word " sqft").
(** "Sold:\s*\$([\d,]+)" *)
Definition re_sold_price : regex :=
  Seq (word "Sold:") (Seq spaces (Seq (Chr "$"%char) (Grp (Plus (Cls is_price_char))))).

(** ** The target property record *)

Record PropertyDetails : Type := {
  address : string;
  beds : Z;
  baths : Z;
  sq_ft : Z;
  lot_size : Z;
  year_built : Z;
  latitude : option pyfloat;
  longitude : option pyfloat
}.

(** [int(re.search(p, html).group(1)) if re.search(p, html) else 0] *)
Definition int_field (p : regex) (html : string) : result Z :=
  match re_search p html with
  | Some g => py_int g
  | None => Ok 0
  end.

(** [int(re.search(p, html).group(1).replace(',', '')) if re.search(p, html) else 0] *)
Definition int_field_commas (p : regex) (html : string) : result Z :=
  match re_search p html with
  | Some g => py_int (remove_commas g)
  | None => Ok 0
  end.

(** [float(m.group(1)) if m else None] *)
Definition float_field (p : regex) (html : string) : result (option pyfloat) :=
  match re_search p html with
  | Some g => let* f := py_float g in Ok (Some f)
  | None => Ok None
  end.

(** Lines 53 to 76 of [get_property_details]: the record read off a
    non-empty page. *)
Definition extract_details (addr html : string) : result PropertyDetails :=
  let* beds := int_field re_beds html in
  let* baths := int_field re_baths html in
  let* sq_ft := int_field_commas re_sq_ft html in
  let* lot_size := int_field_commas re_lot_size html in
  let* year_built := int_field re_year_built html in
  let* lat := float_field re_latitude html in
  let* lon := float_field re_longitude html in
  Ok {| address := addr; beds := beds; baths := baths; sq_ft := sq_ft;
        lot_size := lot_size; year_built := year_built;
        latitude := lat; longitude := lon |}.

(** [not all([beds, baths, sq_ft])] *)
Definition partial_details (d : PropertyDetails) : bool :=
  negb (negb (beds d =? 0) && negb (baths d =? 0) && negb (sq_ft d =? 0)).

(** Lines 47 to 76: what [get_property_details] returns for the content
    the fetcher handed back; [None] is the empty dict. *)
Definition details_of_page (addr html : string) : result (option PropertyDetails) :=
  if String.eqb html "" then Ok None
  else let* d := extract_details addr html in Ok (Some d).

(** ** Float arithmetic and comparison *)

Definition fneg (a : pyfloat) : pyfloat :=
  match a with
  | FNan => FNan
  | FInf n => FInf (negb n)
  | FFin q => FFin (- q)%Q
  end.

Definition fadd (a b : pyfloat) : pyfloat :=
  match a, b with
  | FNan, _ | _, FNan => FNan
  | FInf n, FInf m => if Bool.eqb n m then FInf n else FNan
  | FInf n, FFin _ | FFin _, FInf n => FInf n
  | FFin p, FFin q => FFin (p + q)%Q
  end.

Definition fsub (a b : pyfloat) : pyfloat := fadd a (fneg b).

Definition fabs (a : pyfloat) : pyfloat :=
  match a with
  | FNan => FNan
  | FInf _ => FInf false
  | FFin q => FFin (Qabs q)
  end.

Definition q_sign_neg (q : Q) : bool := (Qnum q <? 0)%Z.
Definition q_is_zero (q : Q) : bool := (Qnum q =? 0)%Z.

Definition fmul (a b : pyfloat) : pyfloat :=
  match a, b with
  | FNan, _ | _, FNan => FNan
  | FInf n, FInf m => FInf (xorb n m)
  | FInf n, FFin q | FFin q, FInf n =>
      if q_is_zero q then FNan else FInf (xorb n (q_sign_neg q))
  | FFin p, FFin q => FFin (p * q)%Q
  end.

(** [a <= b] *)
Definition fle (a b : pyfloat) : bool :=
  match a, b with
  | FNan, _ | _, FNan => false
  | FInf true, _ => true
  | _, FInf false => true
  | FInf false, _ => false
  | _, FInf true => false
  | FFin p, FFin q => Qle_bool p q
  end.

(** [a == b] *)
Definition feq (a b : pyfloat) : Prop :=
  match a, b with
  | FFin p, FFin q => (p == q)%Q
  | FInf n, FInf m => n = m
  | _, _ => False
  end.

(** Truth value of a float: everything but zero. *)
Definition ftruthy (a : pyfloat) : bool :=
  match a with
  | FFin q => negb (q_is_zero q)
  | _ => true
  end.

(** ** The comp loop of [get_comps] *)

(** What the loop reads off one listing card (an [article] whose id
    matches "zpid_\d+"): the text of the whole card and, for each of the
    four elements it looks up, the text of the first one found. *)
Record Card : Type := {
  card_text : string;
  card_address : option string;
  card_beds : option string;
  card_baths : option string;
  card_sold_date : option string
}.

(** One row appended to [comps]. *)
Record Comp : Type := {
  Address : string;
  Beds : Z;
  Baths : pyfloat;
  Sq_Ft : Z;
  Sold_Date : string;
  Sold_Price : Z
}.

(** Lines 95 to 102. *)
Definition parse_card (card : Card) : result Comp :=
  let address_comp :=
    match card_address card with
    | Some a => text (strip (chars a))
    | None => ""
    end in
  let* beds_comp :=
    match card_beds card with
    | Some t => let* tok := first_token (chars t) in py_int tok
    | None => Ok 0
    end in
  let* baths_comp :=
    match card_baths card with
    | Some t => let* tok := first_token (chars t) in py_float tok
    | None => Ok (float_of_int 0)
    end in
  let* sq_ft_comp := int_field_commas re_comp_sq_ft (card_text card) in
  let* sold_price := int_field_commas re_sold_price (card_text card) in
  let sold_date :=
    match card_sold_date card with
    | Some t => t
    | None => ""
    end in
  Ok {| Address := address_comp; Beds := beds_comp; Baths := baths_comp;
        Sq_Ft := sq_ft_comp; Sold_Date := sold_date;
        Sold_Price := sold_price |}.

(** Lines 105 and 106: the similarity and recency test. *)
Definition similar (beds baths sq_ft : Z) (c : Comp) : bool :=
  (Z.abs (Beds c - beds) <=? 1) &&
  fle (fabs (fsub (Baths c) (float_of_int baths))) (float_of_int 1) &&
  fle (fmul (FFin 0.8) (float_of_int sq_ft)) (float_of_int (Sq_Ft c)) &&
  fle (float_of_int (Sq_Ft c)) (fmul (FFin 1.2) (float_of_int sq_ft)) &&
  negb (String.eqb (Sold_Date c) "") &&
  contains (chars "2025") (chars (Sold_Date c)).

(** Lines 91 to 114: the rows kept, in page order.  The first card whose
    text [int] or [float] rejects ends the loop with that exception. *)
Fixpoint collect_comps (beds baths sq_ft : Z) (cards : list Card)
  : result (list Comp) :=
  match cards with
  | [] => Ok []
  | card :: rest =>
      let* c := parse_card card in
      let* kept := collect_comps beds baths sq_ft rest in
      Ok (if similar beds baths sq_ft c then c :: kept else kept)
  end.

(** ** Data frames and the estimator *)

Inductive cell : Type :=
| CStr (s : string)
| CInt (n : Z)
| CFloat (f : pyfloat).

(** A frame, column by column: each label with its values. *)
Definition DataFrame : Type := list (string * list cell).

(** [pd.DataFrame(comps)] for the list of row dicts built by the loop. *)
Definition pd_DataFrame (comps : list Comp) : DataFrame :=
  match comps with
  | [] => []
  | _ =>
      [ ("Address", map (fun c => CStr (Address c)) comps);
        ("Beds", map (fun c => CInt (Beds c)) comps);
        ("Baths", map (fun c => CFloat (Baths c)) comps);
        ("Sq Ft", map (fun c => CInt (Sq_Ft c)) comps);
        ("Sold Date", map (fun c => CStr (Sold_Date c)) comps);
        ("Sold Price", map (fun c => CInt (Sold_Price c)) comps) ]
  end.

(** [df.empty]: no column, or no row. *)
Definition df_empty (df : DataFrame) : bool :=
  match df with
  | [] => true
  | (_, []) :: _ => true
  | _ => false
  end.

(** [label in df.columns] *)
Definition has_column (label : string) (df : DataFrame) : bool :=
  existsb (fun col => String.eqb (fst col) label) df.

(** [df[label]] *)
Fixpoint column (label : string) (df : DataFrame) : list cell :=
  match df with
  | [] => []
  | (l, vals) :: df' => if String.eqb l label then vals else column label df'
  end.

(** The numbers of a series, not-a-number entries skipped. *)
Fixpoint numeric_values (vals : list cell) : result (list pyfloat) :=
  match vals with
  | [] => Ok []
  | CStr _ :: _ => Raise TypeError
  | CInt n :: rest =>
      let* tl := numeric_values rest in Ok (float_of_int n :: tl)
  | CFloat FNan :: rest => numeric_values rest
  | CFloat f :: rest =>
      let* tl := numeric_values rest in Ok (f :: tl)
  end.

Fixpoint insert_sorted (x : pyfloat) (l : list pyfloat) : list pyfloat :=
  match l with
  | [] => [x]
  | y :: l' => if fle x y then x :: l else y :: insert_sorted x l'
  end.

Definition sort_floats (l : list pyfloat) : list pyfloat :=
  fold_right insert_sorted [] l.

Definition fhalf (a : pyfloat) : pyfloat := fmul a (FFin (1 # 2)).

(** The middle value of the sorted list, or the mean of the two middle
    values when the count is even; not-a-number for no value at all. *)
Definition median_of (l : list pyfloat) : pyfloat :=
  let sorted := sort_floats l in
  let n := length sorted in
  match n with
  | O => FNan
  | _ =>
      if Nat.even n
      then fhalf (fadd (nth (n / 2 - 1) sorted FNan) (nth (n / 2) sorted FNan))
      else nth (n / 2) sorted FNan
  end.

(** [series.median()] *)
Definition series_median (vals : list cell) : result pyfloat :=
  let* nums := numeric_values vals in Ok (median_of nums).

Definition calculate_arv (comps_df : DataFrame) : result pyfloat :=
  if negb (df_empty comps_df) && has_column "Sold Price" comps_df
  then series_median (column "Sold Price" comps_df)
  else Ok (float_of_int 0).

(** ** The search URL of [get_comps] *)

(** The literal of line 82, between the opening [f] quote and the
    closing quote that [.format] is called on. *)
Definition search_url_literal : string :=
  "https://www.zillow.com/homes/{lat},{lon}_rb/?searchQueryState={{%22pagination%22%3A{{}}%2C%22isMapVisible%22%3Atrue%2C%22filterState%22%3A{{%22sort%22%3A{{%22value%22%3A%22globalrelevanceex%22}}%2C%22ah%22%3A{{%22value%22%3Atrue}}%2C%22sold%22%3A{{%22value%22%3Atrue}}%2C%22rs%22%3A{{%22value%22%3Atrue}}%2C%22mf%22%3A{{%22value%22%3Afalse}}%2C%22fsba%22%3A{{%22value%22%3Afalse}}%2C%22fsbo%22%3A{{%22value%22%3Afalse}}%2C%22nc%22%3A{{%22value%22%3Afalse}}%2C%22cmsn%22%3A{{%22value%22%3Afalse}}%2C%22auc%22%3A{{%22value%22%3Afalse}}%2C%22fore%22%3A{{%22value%22%3Afalse}}%2C%22pmf%22%3A{{%22value%22%3Afalse}}%2C%22pf%22%3A{{%22value%22%3Afalse}}%2C%22mp%22%3A{{%22value%22%3Afalse}}%2C%22con%22%3A{{%22value%22%3Afalse}}%2C%22land%22%3A{{%22value%22%3Afalse}}%2C%22tow%22%3A{{%22value%22%3Afalse}}%2C%22apa%22%3A{{%22value%22%3Afalse}}%2C%22apco%22%3A{{%22value%22%3Afalse}}%2C%22manu%22%3A{{%22value%22%3Afalse}}%2C%22house%22%3A{{%22value%22%3Atrue}}%2C%22town%22%3A{{%22value%22%3Atrue}}%2C%22cond%22%3A{{%22value%22%3Atrue}}%2C%22aprt%22%3A{{%22value%22%3Atrue}}%2C%22mlt%22%3A{{%22value%22%3Afalse}}%2C%22man%22%3A{{%22value%22%3Afalse}}%2C%22lot%22%3A{{%22value%22%3Afalse}}%2C%22room%22%3A{{%22value%22%3Afalse}}%2C%22sf%22%3A{{%22value%22%3Afalse}}%2C%22ha%22%3A{{%22value%22%3Afalse}}%2C%22bd%22%3A{{%22value%22%3A%22{0}%22}}%2C%22ba%22%3A{{%22value%22%3A%22{1}%22}}%2C%22sqft%22%3A{{%22value%22%3A%22{2}%22}}%2C%22lot%22%3A{{%22value%22%3A%22{3}%22}}%2C%22yb%22%3A{{%22value%22%3A%22{4}%22}}%2C%22fr%22%3A{{%22value%22%3Atrue}}%2C%22fs%22%3A{{%22value%22%3A30}}%2C%22fsbo%22%3A{{%22value%22%3Afalse}}%2C%22cmsn%22%3A{{%22value%22%3Afalse}}%2C%22auc%22%3A{{%22value%22%3Afalse}}%2C%22fore%22%3A{{%22value%22%3Afalse}}%2C%22pmf%22%3A{{%22value%22%3Afalse}}%2C%22pf%22%3A{{%22value%22%3Afalse}}%2C%22mp%22%3A{{%22value%22%3Afalse}}%2C%22fr%22%3A{{%22value%22%3Atrue}}%2C%22rh%22%3A{{%22value%22%3Atrue}}}}%2C%22isListVisible%22%3Atrue%2C%22mapBounds%22%3A{{%22west%22%3A{5}%2C%22east%22%3A{6}%2C%22south%22%3A{7}%2C%22north%22%3A{8}}}}%2C%22usersSearchTerm%22%3A%22{9}%22}}".

Inductive pyval : Type :=
| VNone
| VInt (n : Z)
| VFloat (f : pyfloat)
| VStr (s : string).

Inductive piece : Type :=
| Text (t : list ascii)
| Field (expr : list ascii).

Inductive scan_mode : Type :=
| InText (acc : list ascii)
| InField (acc : list ascii).

(** How Python reads the body of an f-string whose replacement fields are
    plain names or numbers: a doubled brace is one literal brace, an
    opening brace starts a field that runs to the next closing brace, and
    a closing brace on its own is rejected. *)
Fixpoint fstring_scan (m : scan_mode) (l : list ascii) : result (list piece) :=
  match m, l with
  | InText acc, [] => Ok [Text acc]
  | InField _, [] => Raise SyntaxError
  | InText acc, c :: l' =>
      if ascii_eqb c "{"%char then
        match l' with
        | c2 :: l'' =>
            if ascii_eqb c2 "{"%char
            then fstring_scan (InText (acc ++ ["{"%char])) l''
            else let* ps := fstring_scan (InField []) l' in Ok (Text acc :: ps)
        | [] => Raise SyntaxError
        end
      else if ascii_eqb c "}"%char then
        match l' with
        | c2 :: l'' =>
            if ascii_eqb c2 "}"%char
            then fstring_scan (InText (acc ++ ["}"%char])) l''
            else Raise SyntaxError
        | [] => Raise SyntaxError
        end
      else fstring_scan (InText (acc ++ [c])) l'
  | InField acc, c :: l' =>
      if ascii_eqb c "}"%char then
        match acc with
        | [] => Raise SyntaxError
        | _ => let* ps := fstring_scan (InText []) l' in Ok (Field acc :: ps)
        end
      else if ascii_eqb c "{"%char then Raise SyntaxError
      else fstring_scan (InField (acc ++ [c])) l'
  end.

Definition fstring_pieces (s : string) : result (list piece) :=
  fstring_scan (InText []) (chars s).

(** [str(n)] for an [int] *)
Definition str_of_int (n : Z) : string := NilZero.string_of_int (Z.to_int n).

Section Formatting.
(** [str(x)] for a [float]. *)
Variable float_repr : pyfloat -> string.

Definition str_of (v : pyval) : string :=
  match v with
  | VNone => "None"
  | VInt n => str_of_int n
  | VFloat f => float_repr f
  | VStr s => s
  end.

Fixpoint lookup_name (env : list (string * pyval)) (x : string)
  : result pyval :=
  match env with
  | [] => Raise NameError
  | (y, v) :: env' => if String.eqb x y then Ok v else lookup_name env' x
  end.

(** A field of the literal is a name in scope or a decimal number. *)
Definition eval_field (env : list (string * pyval)) (e : list ascii)
  : result pyval :=
  if forallb is_digit e then Ok (VInt (digits_value e))
  else lookup_name env (text e).

Fixpoint fstring_eval (env : list (string * pyval)) (ps : list piece)
  : result (list ascii) :=
  match ps with
  | [] => Ok []
  | Text t :: ps' =>
      let* tl := fstring_eval env ps' in Ok (t ++ tl)
  | Field e :: ps' =>
      let* v := eval_field env e in
      let* tl := fstring_eval env ps' in
      Ok (chars (str_of v) ++ tl)
  end.

(** [template.format( *args )] for numbered fields: a doubled brace is
    one literal brace, an opening brace starts a field that must be a
    decimal index into [args], anything else is rejected. *)
Fixpoint str_format (m : scan_mode) (args : list pyval) (l : list ascii)
  : result (list ascii) :=
  match m, l with
  | InText acc, [] => Ok acc
  | InField _, [] => Raise ValueError
  | InText acc, c :: l' =>
      if ascii_eqb c "{"%char then
        match l' with
        | c2 :: l'' =>
            if ascii_eqb c2 "{"%char
            then str_format (InText (acc ++ ["{"%char])) args l''
            else let* tl := str_format (InField []) args l' in Ok (acc ++ tl)
        | [] => Raise ValueError
        end
      else if ascii_eqb c "}"%char then
        match l' with
        | c2 :: l'' =>
            if ascii_eqb c2 "}"%char
            then str_format (InText (acc ++ ["}"%char])) args l''
            else Raise ValueError
        | [] => Raise ValueError
        end
      else str_format (InText (acc ++ [c])) args l'
  | InField acc, c :: l' =>
      if ascii_eqb c "}"%char then
        match acc with
        | [] => Raise ValueError
        | _ =>
            if forallb is_digit acc then
              match nth_error args (Z.to_nat (digits_value acc)) with
              | Some v =>
                  let* tl := str_format (InText []) args l' in
                  Ok (chars (str_of v) ++ tl)
              | None => Raise IndexError
              end
            else Raise ValueError
        end
      else if ascii_eqb c "{"%char then Raise ValueError
      else str_format (InField (acc ++ [c])) args l'
  end.

(** [x - y] and [x + y] for a coordinate that may be [None]. *)
Definition coord_minus (x : option pyfloat) (y : pyfloat) : result pyval :=
  match x with
  | Some f => Ok (VFloat (fsub f y))
  | None => Raise TypeError
  end.

Definition coord_plus (x : option pyfloat) (y : pyfloat) : result pyval :=
  match x with
  | Some f => Ok (VFloat (fadd f y))
  | None => Raise TypeError
  end.

(** The inner f-strings "{n*0.8}-{n*1.2}". *)
Definition range_text (n : Z) : string :=
  float_repr (fmul (float_of_int n) (FFin 0.8)) +:+ "-" +:+
  float_repr (fmul (float_of_int n) (FFin 1.2)).

(** The eleven positional arguments of lines 83 and 84, in order. *)
Definition format_args (address : string) (lat lon : option pyfloat)
           (beds baths sq_ft lot_size year_built : Z)
  : result (list pyval) :=
  let* west := coord_minus lon (FFin 0.01) in
  let* east := coord_plus lon (FFin 0.01) in
  let* south := coord_minus lat (FFin 0.01) in
  let* north := coord_plus lat (FFin 0.01) in
  Ok [ VInt beds; VInt baths; VStr (range_text sq_ft);
       VStr (range_text lot_size); VInt (year_built - 10);
       VInt (year_built + 10); west; east; south; north; VStr address ].

Definition coord_val (x : option pyfloat) : pyval :=
  match x with
  | Some f => VFloat f
  | None => VNone
  end.

(** Lines 82 to 85: the literal read as an f-string with [lat] and
    [lon] in scope, then [.format] applied to the text it yields. *)
Definition search_url (address : string) (lat lon : option pyfloat)
           (beds baths sq_ft lot_size year_built : Z) : result string :=
  let* ps := fstring_pieces search_url_literal in
  let* template :=
    fstring_eval [("lat", coord_val lat); ("lon", coord_val lon)] ps in
  let* args :=
    format_args address lat lon beds baths sq_ft lot_size year_built in
  let* url := str_format (InText []) args template in
  Ok (text url).
End Formatting.

(** ** The world the script runs in *)

Record Response : Type := { status_code : Z; body : string }.

(** What the script puts on the page. *)
Inductive ui_event : Type :=
| st_error (msg : string)
| st_warning (msg : string)
| st_info (msg : string)
| st_element (what : string).

(** One memo entry: when it was stored, the value, and the page elements
    the call produced, which a later hit replays. *)
Record memo_entry (V : Type) : Type := {
  stored_at : Z;
  memo_value : V;
  memo_replay : list ui_event
}.
Arguments stored_at {V} _.
Arguments memo_value {V} _.
Arguments memo_replay {V} _.

Record World : Type := {
  clock : Z;
  requests : list string;
  page : list ui_event;
  memo_geocode : gmap string (memo_entry (option pyfloat * option pyfloat));
  memo_details : gmap string (memo_entry (option PropertyDetails));
  memo_comps : gmap string (memo_entry DataFrame)
}.

Definition M (A : Type) : Type := World -> World * result A.

Definition ret {A : Type} (a : A) : M A := fun w => (w, Ok a).
Definition raise {A : Type} (e : exn) : M A := fun w => (w, Raise e).
Definition lift {A : Type} (c : result A) : M A := fun w => (w, c).

Definition mbind {A B : Type} (c : M A) (k : A -> M B) : M B :=
  fun w =>
    match c w with
    | (w', Ok a) => k a w'
    | (w', Raise e) => (w', Raise e)
    end.

Notation "'let!' x ':=' c 'in' k" := (mbind c (fun x => k))
  (at level 10, x name, c at level 100, k at level 200).

(** [time.sleep(d)] *)
Definition sleep (d : Z) : M unit :=
  fun w =>
    ({| clock := clock w + d; requests := requests w; page := page w;
        memo_geocode := memo_geocode w; memo_details := memo_details w;
        memo_comps := memo_comps w |}, Ok tt).

Definition log_request (url : string) : M unit :=
  fun w =>
    ({| clock := clock w; requests := url :: requests w; page := page w;
        memo_geocode := memo_geocode w; memo_details := memo_details w;
        memo_comps := memo_comps w |}, Ok tt).

Definition emit_all (evs : list ui_event) : M unit :=
  fun w =>
    ({| clock := clock w; requests := requests w; page := page w ++ evs;
        memo_geocode := memo_geocode w; memo_details := memo_details w;
        memo_comps := memo_comps w |}, Ok tt).

Definition emit (ev : ui_event) : M unit := emit_all [ev].

(** [st.stop()] *)
Definition st_stop {A : Type} : M A := raise StopException.

Definition set_memo_geocode
  (m : gmap string (memo_entry (option pyfloat * option pyfloat)))
  (w : World) : World :=
  {| clock := clock w; requests := requests w; page := page w;
     memo_geocode := m; memo_details := memo_details w;
     memo_comps := memo_comps w |}.

Definition set_memo_details
  (m : gmap string (memo_entry (option PropertyDetails)))
  (w : World) : World :=
  {| clock := clock w; requests := requests w; page := page w;
     memo_geocode := memo_geocode w; memo_details := m;
     memo_comps := memo_comps w |}.

Definition set_memo_comps (m : gmap string (memo_entry DataFrame))
  (w : World) : World :=
  {| clock := clock w; requests := requests w; page := page w;
     memo_geocode := memo_geocode w; memo_details := memo_details w;
     memo_comps := m |}.

(** [@st.cache_data(ttl=ttl)] around [f], for a memo table reached
    through [get] and [set]: an entry younger than [ttl] seconds is
    returned and its page elements replayed; otherwise [f] runs and, when
    it returns, its value is stored with the time of storing.  A call
    that raises stores nothing. *)
Definition cache_data {V : Type} (ttl : Z)
           (get : World -> gmap string (memo_entry V))
           (set : gmap string (memo_entry V) -> World -> World)
           (f : string -> M V) (key : string) : M V :=
  fun w =>
    let compute :=
      match f key w with
      | (w', Ok v) =>
          let entry := {| stored_at := clock w'; memo_value := v;
                          memo_replay := drop (length (page w)) (page w') |} in
          (set (<[key := entry]> (get w')) w', Ok v)
      | (w', Raise e) => (w', Raise e)
      end in
    match get w !! key with
    | Some entry =>
        if clock w <? stored_at entry + ttl
        then (fst (emit_all (memo_replay entry) w), Ok (memo_value entry))
        else compute
    | None => compute
    end.

(** What the module takes from outside: the geocoding service, the
    network, the HTML parser, and the library text functions it calls. *)
Class Env : Type := {
  (** [geolocator.geocode(address)] at a given time *)
  nominatim : Z -> string -> result (option (pyfloat * pyfloat));
  (** [requests.get(url, ...)] at a given time *)
  requests_get : Z -> string -> result Response;
  (** the listing cards [soup.find_all] yields for a page *)
  find_cards : string -> list Card;
  (** [str(x)] for a [float] *)
  float_repr : pyfloat -> string;
  (** [urllib.parse.quote] *)
  quote : string -> string;
  (** the memo key of the argument tuple of [get_comps] *)
  comps_key : option pyfloat * option pyfloat * Z * Z * Z * Z * Z -> string
}.

Fixpoint replace_char (a b : ascii) (s : string) : string :=
  match s with
  | EmptyString => EmptyString
  | String c s' => String (if ascii_eqb c a then b else c) (replace_char a b s')
  end.

Section Script.
Context {E : Env}.

Definition geocode_address_body (address : string)
  : M (option pyfloat * option pyfloat) :=
  fun w =>
    match nominatim (clock w) address with
    | Ok (Some (lat, lon)) => (w, Ok (Some lat, Some lon))
    | Ok None =>
        (fst (emit (st_error "Could not geocode address.") w),
         Ok (None, None))
    | Raise _ => (w, Ok (None, None))
    end.

Definition geocode_address : string -> M (option pyfloat * option pyfloat) :=
  cache_data 3600 memo_geocode set_memo_geocode geocode_address_body.

(** The identification header, picked by the hash of the URL, has no
    part in what is returned and is left out. *)
Definition fetch_zillow_page (url : string) : M string :=
  let! _ := sleep 2 in
  let! _ := log_request url in
  fun w =>
    match requests_get (clock w) url with
    | Raise e => (w, Raise e)
    | Ok response =>
        if status_code response =? 200 then (w, Ok (body response))
        else
          (fst (emit (st_error ("Failed to fetch " +:+ url +:+ " (status: "
                                +:+ str_of_int (status_code response)
                                +:+ "). Try again or check connection.")) w),
           Ok "")
    end.

Definition details_url (address : string) : string :=
  "https://www.zillow.com/homedetails/" +:+
  replace_char " "%char "-"%char (quote address).

Definition get_property_details_body (address : string)
  : M (option PropertyDetails) :=
  let! html := fetch_zillow_page (details_url address) in
  let! details := lift (details_of_page address html) in
  let! _ := match details with
            | Some d =>
                if partial_details d
                then emit (st_warning
                  "Partial details fetched; some fields may be missing.")
                else ret tt
            | None => ret tt
            end in
  ret details.

Definition get_property_details : string -> M (option PropertyDetails) :=
  cache_data 3600 memo_details set_memo_details get_property_details_body.

(** [address] is the module-level text input, which line 84 passes to
    [.format]. *)
Definition get_comps_body (address : string) (lat lon : option pyfloat)
           (beds baths sq_ft lot_size year_built : Z) : M DataFrame :=
  let! search_url :=
    lift (search_url float_repr address lat lon beds baths sq_ft lot_size
            year_built) in
  let! html := fetch_zillow_page search_url in
  if String.eqb html "" then ret (pd_DataFrame [])
  else
    let! comps := lift (collect_comps beds baths sq_ft (find_cards html)) in
    ret (pd_DataFrame comps).

Definition get_comps (address : string) (lat lon : option pyfloat)
           (beds baths sq_ft lot_size year_built : Z) : M DataFrame :=
  cache_data 3600 memo_comps set_memo_comps
    (fun _ => get_comps_body address lat lon beds baths sq_ft lot_size
                year_built)
    (comps_key (lat, lon, beds, baths, sq_ft, lot_size, year_built)).

(** [not x] for a coordinate: [None] and zero are false. *)
Definition coord_falsy (x : option pyfloat) : bool :=
  match x with
  | Some f => negb (ftruthy f)
  | None => true
  end.

Definition show_details (d : PropertyDetails) : M unit :=
  emit_all [ st_element "Target Property Details";
             st_element ("**Address:** " +:+ address d);
             st_element ("**Beds:** " +:+ str_of_int (beds d));
             st_element ("**Baths:** " +:+ str_of_int (baths d));
             st_element "**Sq Ft:**";
             st_element "**Lot Size:**";
             st_element ("**Year Built:** " +:+ str_of_int (year_built d)) ].

(** Lines 137 to 170: what follows a geocoding result that was
    accepted. *)
Definition after_geocoding (address : string) : M unit :=
  let! prop_details := get_property_details address in
  match prop_details with
  | Some d =>
      let! _ := show_details d in
      let! comps_df :=
        get_comps address (latitude d) (longitude d) (beds d) (baths d)
          (sq_ft d) (lot_size d) (year_built d) in
      if negb (df_empty comps_df) then
        let! _ := emit_all [ st_element "Comparable Recently Sold Properties";
                             st_element "dataframe" ] in
        let! arv := lift (calculate_arv comps_df) in
        emit_all [ st_element "Estimated ARV (Median Sold Price)";
                   st_info "Based on comps." ]
      else
        emit (st_warning
          "No matching comps found. Try a broader area or check for blocks.")
  | None => st_stop
  end.

(** Lines 130 to 170: the button handler, for the state of the button
    and the text of the address box. *)
Definition on_calculate (clicked : bool) (address : string) : M unit :=
  if clicked && negb (String.eqb address "") then
    let! coords := geocode_address address in
    if coord_falsy (fst coords) || coord_falsy (snd coords) then
      let! _ := emit (st_error "Geocoding failed. Check address.") in
      st_stop
    else after_geocoding address
  else ret tt.
End Script.

(** ** Sample pages and cards *)

Definition quoted (s : string) : string := String dq (s +:+ String dq "").

(** A page whose bedroom count carries a fraction. *)
Definition page_fractional_beds : string := "3.5 bd".

(** A page with none of the seven patterns. *)
Definition page_plain : string := "Page not found".

(** Pages with the latitude key only, the longitude key only, and both. *)
Definition page_latitude_only : string := quoted "latitude" +:+ ": 1.5".
Definition page_longitude_only : string := quoted "longitude" +:+ ": -2.25".
Definition page_both_coordinates : string :=
  quoted "latitude" +:+ ": 1.5, " +:+ quoted "longitude" +:+ ": -2.25".

(** A full listing page. *)
Definition page_listing : string :=
  "3 bd 2 ba 1,500 sqft lot: 5,000 built 1990 " +:+ page_both_coordinates.

(** A card whose bedroom element reads '-1 bd', sold in 2025, with no
    other element. *)
Definition card_minus_one : Card :=
  {| card_text := "-1 bd 2025"; card_address := None;
     card_beds := Some "-1 bd"; card_baths := None;
     card_sold_date := Some "2025" |}.

(** A card close to a 3 bed, 2 bath, 1500 sqft target. *)
Definition card_similar : Card :=
  {| card_text := "4 bds 2.5 ba 1600 sqft Sold: $250,000 Sold 03/2025";
     card_address := Some " 7 Elm St ";
     card_beds := Some "4 bds"; card_baths := Some "2.5 ba";
     card_sold_date := Some "Sold 03/2025" |}.

(** A row with a given sold price and nothing else of interest. *)
Definition comp_priced (p : Z) : Comp :=
  {| Address := "7 Elm St"; Beds := 3; Baths := float_of_int 2;
     Sq_Ft := 1500; Sold_Date := "Sold 03/2025"; Sold_Price := p |}.



(** The literal up to and including the doubled brace that follows the
    field 8, and what comes after it. *)
Definition url_literal_head : string := substring 0 2043 search_url_literal.
Definition url_literal_tail : string := "}%2C%22usersSearchTerm%22%3A%22{9}%22}}".

(** The part of the literal that names the year range and the map
    bounds, with the fields it uses. *)
Definition year_fragment : string :=
  "%22yb%22%3A{{%22value%22%3A%22{4}%22}}".
Definition bounds_fragment : string :=
  "%22mapBounds%22%3A{{%22west%22%3A{5}%2C%22east%22%3A{6}%2C%22south%22%3A{7}%2C%22north%22%3A{8}}}".


Definition world0 : World :=
  {| clock := 0; requests := []; page := [];
     memo_geocode := ∅; memo_details := ∅; memo_comps := ∅ |}.

(** The world after [d] more seconds. *)
Definition later (d : Z) (w : World) : World := fst (sleep d w).

(** An outside world where every address resolves to Los Angeles and
    every page is the sample listing. *)
Definition env_listing : Env :=
  {| nominatim := fun _ _ => Ok (Some (FFin 34.05, FFin (-118.25)));
     requests_get := fun _ _ => Ok {| status_code := 200; body := page_listing |};
     find_cards := fun _ => [card_similar];
     float_repr := fun _ => "0.0";
     quote := fun s => s;
     comps_key := fun _ => "comps" |}.

(** The same, with every address resolving to a point on the equator. *)
Definition env_equator : Env :=
  {| nominatim := fun _ _ => Ok (Some (FFin 0, FFin 32.5));
     requests_get := fun _ _ => Ok {| status_code := 200; body := page_listing |};
     find_cards := fun _ => [card_similar];
     float_repr := fun _ => "0.0";
     quote := fun s => s;
     comps_key := fun _ => "comps" |}.



(** The memo table [m] holds an entry for [key] that is younger than
    [ttl] seconds at time [now]. *)
Definition has_live_entry {V : Type} (ttl : Z)
           (m : gmap string (memo_entry V)) (key : string) (now : Z) : Prop :=
  exists entry, m !! key = Some entry /\ now < stored_at entry + ttl.

(** ** Counting around a value *)

(** Insertion sort on integers, to follow the sort of the median on a
    column of integers. *)
Fixpoint insert_Z (x : Z) (l : list Z) : list Z :=
  match l with
  | [] => [x]
  | y :: l' => if x <=? y then x :: l else y :: insert_Z x l'
  end.

Definition sort_Z (l : list Z) : list Z := fold_right insert_Z [] l.



(** ** What a pattern can consume and capture *)

(** Every character [r] can consume satisfies [P]. *)
Fixpoint consumes (P : ascii -> Prop) (r : regex) : Prop :=
  match r with
  | Chr c => P c
  | Cls p => forall c, p c = true -> P c
  | Seq a b => consumes P a /\ consumes P b
  | Opt a | Star a | Grp a => consumes P a
  end.

(** Every text the group of [r] can capture is made of characters
    satisfying [P]. *)
Fixpoint captures (P : ascii -> Prop) (r : regex) : Prop :=
  match r with
  | Chr _ | Cls _ => True
  | Seq a b => captures P a /\ captures P b
  | Opt a | Star a => captures P a
  | Grp a => consumes P a
  end.

Definition cap_ok (P : ascii -> Prop) (cap : capture) : Prop :=
  forall g, cap = Some g -> Forall P g.

Definition not_minus (c : ascii) : Prop := c <> "-"%char.

(** ** The texts a pattern matches *)

Inductive lang : regex -> list ascii -> Prop :=
| lang_chr c : lang (Chr c) [c]
| lang_cls (p : ascii -> bool) c : p c = true -> lang (Cls p) [c]
| lang_seq r1 r2 w1 w2 :
    lang r1 w1 -> lang r2 w2 -> lang (Seq r1 r2) (w1 ++ w2)
| lang_opt_skip r : lang (Opt r) []
| lang_opt_take r w : lang r w -> lang (Opt r) w
| lang_star_stop r : lang (Star r) []
| lang_star_more r w1 w2 :
    lang r w1 -> lang (Star r) w2 -> lang (Star r) (w1 ++ w2)
| lang_grp r w : lang r w -> lang (Grp r) w.

(** Every text matched by the body of a group of [r] satisfies [Q]. *)
Fixpoint group_lang (Q : list ascii -> Prop) (r : regex) : Prop :=
  match r with
  | Chr _ | Cls _ => True
  | Seq a b => group_lang Q a /\ group_lang Q b
  | Opt a | Star a => group_lang Q a
  | Grp a => forall w, lang a w -> Q w
  end.

(** A match of [r] always goes through a group. *)
Fixpoint always_captures (r : regex) : Prop :=
  match r with
  | Grp _ => True
  | Seq a b => always_captures a \/ always_captures b
  | _ => False
  end.

Definition cap_is (Q : list ascii -> Prop) (cap : capture) : Prop :=
  exists g, cap = Some g /\ Q g.

Definition all_digits (w : list ascii) : Prop :=
  w <> [] /\ Forall (fun c => is_digit c = true) w.



Definition four_digits (w : list ascii) : Prop :=
  length w = 4%nat /\ Forall (fun c => is_digit c = true) w.

(** A card whose bedroom element has no number, and a card whose
    bathroom element reads 'nan'. *)
Definition card_studio : Card :=
  {| card_text := "Studio 1 ba 450 sqft"; card_address := None;
     card_beds := Some "Studio"; card_baths := Some "1 ba";
     card_sold_date := Some "Sold 01/2025" |}.

Definition card_nan_baths : Card :=
  {| card_text := "3 bds nan ba 1500 sqft"; card_address := None;
     card_beds := Some "3 bds"; card_baths := Some "nan ba";
     card_sold_date := Some "Sold 01/2025" |}.

(** A card with no square-footage text. *)
Definition card_no_sq_ft : Card :=
  {| card_text := "0 bds 0 ba Sold: $90,000"; card_address := None;
     card_beds := Some "0 bds"; card_baths := Some "0 ba";
     card_sold_date := Some "Sold 01/2025" |}.

(** A geocoding result is a pair of coordinates or no coordinate at
    all. *)
Definition paired (r : option pyfloat * option pyfloat) : Prop :=
  r = (None, None) \/ exists lat lon, r = (Some lat, Some lon).

(** Every result held in the geocoding memo is paired. *)
Definition geocode_memo_paired (w : World) : Prop :=
  forall key entry,
    memo_geocode w !! key = Some entry -> paired (memo_value entry).

(** An outside world whose geocoding service finds nothing until time
    1000 and resolves every address afterwards, and whose network is
    down. *)
Definition env_late_geocoder : Env :=
  {| nominatim := fun now _ =>
       if now <? 1000 then Ok None
       else Ok (Some (FFin 34.05, FFin (-118.25)));
     requests_get := fun _ _ => Raise RequestException;
     find_cards := fun _ => [];
     float_repr := fun _ => "0.0";
     quote := fun s => s;
     comps_key := fun _ => "comps" |}.

(** An outside world where every address resolves and the network is
    down. *)
Definition env_offline : Env :=
  {| nominatim := fun _ _ => Ok (Some (FFin 34.05, FFin (-118.25)));
     requests_get := fun _ _ => Raise RequestException;
     find_cards := fun _ => [];
     float_repr := fun _ => "0.0";
     quote := fun s => s;
     comps_key := fun _ => "comps" |}.

(** An outside world where every address resolves and every page comes
    back with status 404. *)
Definition env_resolved_404 : Env :=
  {| nominatim := fun _ _ => Ok (Some (FFin 34.05, FFin (-118.25)));
     requests_get := fun _ _ => Ok {| status_code := 404; body := "Not Found" |};
     find_cards := fun _ => [];
     float_repr := fun _ => "0.0";
     quote := fun s => s;
     comps_key := fun _ => "comps" |}.

(** The text of the error the fetcher reports for a URL and a status. *)
Definition fetch_error (url : string) (status : Z) : ui_event :=
  st_error ("Failed to fetch " +:+ url +:+ " (status: "
            +:+ str_of_int status
            +:+ "). Try again or check connection.").



(** * Properties *)

(** ** The matcher *)

Lemma rmatch_consumes (P : ascii -> Prop) (r : regex) :
  consumes P r ->
  forall (A : Type) s cap (k : list ascii -> capture -> option A) x,
    rmatch r s cap k = Some x ->
    exists w s' cap', s = w ++ s' /\ Forall P w /\ k s' cap' = Some x.
Proof.
  induction r as [c|p|r1 IH1 r2 IH2|r1 IH1|r1 IH1|r1 IH1];
    simpl; intros HP A s cap k x H.
  - destruct s as [|c' s']; [discriminate|].
    destruct (ascii_eqb c c') eqn:E; [|discriminate].
    apply Ascii.eqb_eq in E. subst c'.
    exists [c], s', cap. repeat split; auto.
  - destruct s as [|c' s']; [discriminate|].
    destruct (p c') eqn:E; [|discriminate].
    exists [c'], s', cap. repeat split; auto.
  - destruct HP as [HP1 HP2].
    apply (IH1 HP1) in H. destruct H as (w1 & s1 & cap1 & -> & F1 & H).
    apply (IH2 HP2) in H. destruct H as (w2 & s2 & cap2 & -> & F2 & H).
    exists (w1 ++ w2), s2, cap2. rewrite <- app_assoc.
    repeat split; auto. apply Forall_app; auto.
  - destruct (rmatch r1 s cap k) eqn:E.
    + inversion H; subst. eapply IH1; eauto.
    + exists [], s, cap. repeat split; auto.
  - revert H. generalize (length s) at 1. intros fuel. revert s cap.
    induction fuel as [|fuel IHf]; intros s cap H.
    + exists [], s, cap. repeat split; auto.
    + match type of H with
      | match ?m with _ => _ end = _ => destruct m eqn:E
      end.
      * inversion H; subst.
        apply (IH1 HP) in E. destruct E as (w1 & s1 & cap1 & -> & F1 & E).
        destruct (_ <? _)%nat; [|discriminate].
        apply IHf in E. destruct E as (w2 & s2 & cap2 & -> & F2 & E).
        exists (w1 ++ w2), s2, cap2. rewrite <- app_assoc.
        repeat split; auto. apply Forall_app; auto.
      * exists [], s, cap. repeat split; auto.
  - apply (IH1 HP) in H. destruct H as (w & s' & cap' & -> & F & H).
    eexists w, s', _. repeat split; eauto.
Qed.

Lemma rmatch_captures (P : ascii -> Prop) (r : regex) :
  captures P r ->
  forall (A : Type) s cap (k : list ascii -> capture -> option A) x,
    cap_ok P cap ->
    rmatch r s cap k = Some x ->
    exists s' cap', cap_ok P cap' /\ k s' cap' = Some x.
Proof.
  induction r as [c|p|r1 IH1 r2 IH2|r1 IH1|r1 IH1|r1 IH1];
    simpl; intros HP A s cap k x Hc H.
  - destruct s as [|c' s']; [discriminate|].
    destruct (ascii_eqb c c'); [|discriminate]. eauto.
  - destruct s as [|c' s']; [discriminate|].
    destruct (p c'); [|discriminate]. eauto.
  - destruct HP as [HP1 HP2].
    apply (IH1 HP1) in H; auto. destruct H as (s1 & cap1 & Hc1 & H).
    apply (IH2 HP2) in H; auto.
  - destruct (rmatch r1 s cap k) eqn:E.
    + inversion H; subst. eapply IH1; eauto.
    + eauto.
  - revert H. generalize (length s) at 1. intros fuel. revert s cap Hc.
    induction fuel as [|fuel IHf]; intros s cap Hc H.
    + eauto.
    + match type of H with
      | match ?m with _ => _ end = _ => destruct m eqn:E
      end.
      * inversion H; subst.
        apply (IH1 HP) in E; auto. destruct E as (s1 & cap1 & Hc1 & E).
        destruct (_ <? _)%nat; [|discriminate].
        apply IHf in E; auto.
      * eauto.
  - apply (rmatch_consumes P r1 HP) in H.
    destruct H as (w & s' & cap' & -> & F & H).
    exists s'. eexists. split; [|exact H].
    intros g Hg. inversion Hg; subst g.
    rewrite length_app.
    replace (length w + length s' - length s')%nat with (length w) by lia.
    rewrite firstn_app, Nat.sub_diag, firstn_all. simpl.
    rewrite app_nil_r. exact F.
Qed.

Lemma re_search_captures (P : ascii -> Prop) (r : regex) (html : string) g :
  captures P r -> re_search r html = Some g -> Forall P g.
Proof.
  intros HP. unfold re_search.
  destruct (re_search_from r (chars html)) as [cap|] eqn:E; [|discriminate].
  assert (Hc : cap_ok P cap).
  { clear g. revert E. induction (chars html) as [|c l IH]; simpl.
    - unfold re_match. destruct (rmatch _ _ _ _) eqn:M; [|discriminate].
      intros Heq; inversion Heq; subst.
      apply (rmatch_captures P r HP) in M; [|intros ? ?; discriminate].
      destruct M as (s' & cap' & Hc & M). inversion M; subst. exact Hc.
    - unfold re_match at 1. destruct (rmatch _ _ _ _) eqn:M.
      + intros Heq; inversion Heq; subst.
        apply (rmatch_captures P r HP) in M; [|intros ? ?; discriminate].
        destruct M as (s' & cap' & Hc & M). inversion M; subst. exact Hc.
      + exact IH. }
  destruct cap as [g'|]; intros Heq; inversion Heq; subst; auto.
Qed.

(** ** [int] on what the patterns capture *)

Lemma drop_while_Forall (P : ascii -> Prop) p l :
  Forall P l -> Forall P (drop_while p l).
Proof.
  induction 1 as [|c l Hc Hl IH]; simpl; [constructor|].
  destruct (p c); auto.
Qed.

Lemma strip_Forall (P : ascii -> Prop) l : Forall P l -> Forall P (strip l).
Proof.
  intros H. unfold strip.
  apply Forall_rev, drop_while_Forall, Forall_rev, drop_while_Forall, H.
Qed.

Lemma digit_part_from_digits b l ds :
  digit_part_from b l = Some ds -> Forall (fun c => is_digit c = true) ds.
Proof.
  revert b ds. induction l as [|c l IH]; simpl; intros b ds H.
  - destruct b; inversion H; constructor.
  - destruct (is_digit c) eqn:D.
    + destruct (digit_part_from true l) eqn:R; inversion H; subst.
      constructor; eauto.
    + destruct (ascii_eqb c "_" && b); [|discriminate].
      destruct l as [|d l']; [discriminate|].
      destruct (is_digit d); [|discriminate]. eauto.
Qed.

Lemma digit_val_nonneg c : is_digit c = true -> 0 <= digit_val c.
Proof.
  unfold is_digit, digit_val. intros H.
  apply andb_true_iff in H. destruct H as [H _].
  apply N.leb_le in H. lia.
Qed.

Lemma digits_value_nonneg ds :
  Forall (fun c => is_digit c = true) ds -> 0 <= digits_value ds.
Proof.
  unfold digits_value.
  assert (G : forall acc, 0 <= acc ->
    Forall (fun c => is_digit c = true) ds ->
    0 <= fold_left (fun a c => 10 * a + digit_val c) ds acc).
  { induction ds as [|c ds IH]; simpl; intros acc Ha F; [exact Ha|].
    inversion F as [|? ? Hc Hds]; subst. apply IH; auto.
    pose proof (digit_val_nonneg c Hc). lia. }
  apply G. lia.
Qed.

Lemma py_int_nonneg l v :
  Forall not_minus l -> py_int l = Ok v -> 0 <= v.
Proof.
  intros F. apply strip_Forall in F. unfold py_int, split_sign.
  destruct (strip l) as [|c t].
  - simpl. discriminate.
  - inversion F as [|? ? Hc Ht]; subst.
    destruct (ascii_eqb c "-") eqn:Em.
    { apply Ascii.eqb_eq in Em. contradiction. }
    destruct (ascii_eqb c "+").
    + destruct (digit_part t) eqn:D; [|discriminate].
      intros H; inversion H; subst.
      apply digits_value_nonneg. unfold digit_part in D.
      destruct t; [discriminate|]. eapply digit_part_from_digits; eauto.
    + destruct (digit_part (c :: t)) eqn:D; [|discriminate].
      intros H; inversion H; subst.
      apply digits_value_nonneg. unfold digit_part in D.
      eapply digit_part_from_digits; eauto.
Qed.

Lemma remove_commas_Forall (P : ascii -> Prop) l :
  Forall P l -> Forall P (remove_commas l).
Proof.
  induction 1 as [|c l Hc Hl IH]; simpl; [constructor|].
  unfold remove_commas in *. simpl.
  destruct (negb (ascii_eqb c ",")); auto.
Qed.

Lemma is_digit_not_minus c : is_digit c = true -> not_minus c.
Proof. intros H ->. vm_compute in H. discriminate. Qed.

Lemma is_price_char_not_minus c : is_price_char c = true -> not_minus c.
Proof. intros H ->. vm_compute in H. discriminate. Qed.

Lemma word_consumes (P : ascii -> Prop) l :
  Forall P l -> consumes P (Lit l).
Proof.
  induction 1 as [|c l Hc Hl IH]; simpl.
  - intros c. discriminate.
  - destruct l; simpl; auto.
Qed.

Lemma int_field_nonneg p html v :
  captures not_minus p -> int_field p html = Ok v -> 0 <= v.
Proof.
  intros Hp. unfold int_field.
  destruct (re_search p html) as [g|] eqn:S.
  - apply py_int_nonneg. eapply re_search_captures; eauto.
  - intros H; inversion H; lia.
Qed.

Lemma int_field_commas_nonneg p html v :
  captures not_minus p -> int_field_commas p html = Ok v -> 0 <= v.
Proof.
  intros Hp. unfold int_field_commas.
  destruct (re_search p html) as [g|] eqn:S.
  - apply py_int_nonneg, remove_commas_Forall.
    eapply re_search_captures; eauto.
  - intros H; inversion H; lia.
Qed.

Ltac pattern_captures :=
  repeat (simpl; split); auto;
  try (intros c Hc; first [ apply is_digit_not_minus, Hc
                          | apply is_price_char_not_minus, Hc
                          | discriminate Hc ]);
  try (unfold not_minus; discriminate).

Lemma re_beds_captures : captures not_minus re_beds.
Proof. pattern_captures. Qed.

Lemma re_baths_captures : captures not_minus re_baths.
Proof. pattern_captures. Qed.

Lemma re_sq_ft_captures : captures not_minus re_sq_ft.
Proof. pattern_captures. Qed.

Lemma re_lot_size_captures : captures not_minus re_lot_size.
Proof. pattern_captures. Qed.

Lemma re_year_built_captures : captures not_minus re_year_built.
Proof. pattern_captures. Qed.

Lemma re_comp_sq_ft_captures : captures not_minus re_comp_sq_ft.
Proof. pattern_captures. Qed.

Lemma re_sold_price_captures : captures not_minus re_sold_price.
Proof. pattern_captures. Qed.

(** ** The target property extractor *)

Lemma extract_details_nonneg addr html d :
  extract_details addr html = Ok d ->
  0 <= beds d /\ 0 <= baths d /\ 0 <= sq_ft d /\ 0 <= lot_size d /\
  0 <= year_built d.
Proof.
  unfold extract_details. intros H.
  destruct (int_field re_beds html) as [b|] eqn:Hb; [|discriminate].
  destruct (int_field re_baths html) as [ba|] eqn:Hba; [|discriminate].
  destruct (int_field_commas re_sq_ft html) as [sq|] eqn:Hsq; [|discriminate].
  destruct (int_field_commas re_lot_size html) as [lo|] eqn:Hlo;
    [|discriminate].
  destruct (int_field re_year_built html) as [yb|] eqn:Hyb; [|discriminate].
  simpl in H.
  destruct (float_field re_latitude html) as [la|]; [|discriminate].
  destruct (float_field re_longitude html) as [ln|]; [|discriminate].
  simpl in H. inversion H; subst; simpl.
  repeat split.
  - eapply int_field_nonneg; [apply re_beds_captures | eauto].
  - eapply int_field_nonneg; [apply re_baths_captures | eauto].
  - eapply int_field_commas_nonneg; [apply re_sq_ft_captures | eauto].
  - eapply int_field_commas_nonneg; [apply re_lot_size_captures | eauto].
  - eapply int_field_nonneg; [apply re_year_built_captures | eauto].
Qed.

(** With no pattern found, every count is zero and both coordinates are
    absent. *)
Lemma extract_details_defaults addr html :
  re_search re_beds html = None -> re_search re_baths html = None ->
  re_search re_sq_ft html = None -> re_search re_lot_size html = None ->
  re_search re_year_built html = None ->
  re_search re_latitude html = None -> re_search re_longitude html = None ->
  extract_details addr html =
  Ok {| address := addr; beds := 0; baths := 0; sq_ft := 0; lot_size := 0;
        year_built := 0; latitude := None; longitude := None |}.
Proof.
  intros H1 H2 H3 H4 H5 H6 H7.
  unfold extract_details, int_field, int_field_commas, float_field.
  rewrite H1, H2, H3, H4, H5, H6, H7. reflexivity.
Qed.

Example plain_page_defaults :
  details_of_page "12 Oak St" page_plain =
  Ok (Some {| address := "12 Oak St"; beds := 0; baths := 0; sq_ft := 0;
              lot_size := 0; year_built := 0; latitude := None;
              longitude := None |}).
Proof. vm_compute. reflexivity. Qed.

(** C5, at a page the claim names: a bedroom count written with a
    fraction matches the bedroom pattern, [int] rejects the captured text
    '3.5', and the [ValueError] leaves [get_property_details]. *)
Theorem fractional_beds_raise :
  details_of_page "12 Oak St" page_fractional_beds = Raise ValueError.
Proof. vm_compute. reflexivity. Qed.

(** C7 as stated fails: a page with the latitude key and no longitude key
    yields a record with latitude set and longitude absent. *)
Lemma latitude_without_longitude :
  exists d,
    details_of_page "12 Oak St" page_latitude_only = Ok (Some d) /\
    latitude d <> None /\ longitude d = None.
Proof.
  eexists. split; [vm_compute; reflexivity|]. simpl. split; [discriminate|reflexivity].
Qed.

(** C7, amended: each coordinate is looked up on its own.  Latitude is
    present exactly when the page has a match for the latitude pattern,
    longitude exactly when it has a match for the longitude pattern. *)
Theorem coordinates_looked_up_separately addr html d :
  details_of_page addr html = Ok (Some d) ->
  (latitude d <> None <-> re_search re_latitude html <> None) /\
  (longitude d <> None <-> re_search re_longitude html <> None).
Proof.
  unfold details_of_page. destruct (String.eqb html ""); [discriminate|].
  unfold extract_details.
  destruct (int_field re_beds html); [|discriminate].
  destruct (int_field re_baths html); [|discriminate].
  destruct (int_field_commas re_sq_ft html); [|discriminate].
  destruct (int_field_commas re_lot_size html); [|discriminate].
  destruct (int_field re_year_built html); [|discriminate].
  simpl. unfold float_field.
  destruct (re_search re_latitude html) as [g1|].
  - destruct (py_float g1); [|discriminate]. simpl.
    destruct (re_search re_longitude html) as [g2|].
    + destruct (py_float g2); [|discriminate]. simpl.
      intros H; inversion H; subst; simpl. split; split; discriminate.
    + simpl. intros H; inversion H; subst; simpl.
      split; split; try discriminate; congruence.
  - simpl. destruct (re_search re_longitude html) as [g2|].
    + destruct (py_float g2); [|discriminate]. simpl.
      intros H; inversion H; subst; simpl.
      split; split; try discriminate; congruence.
    + simpl. intros H; inversion H; subst; simpl.
      split; split; congruence.
Qed.

Lemma coordinates_looked_up_separately_witness :
  exists d,
    details_of_page "12 Oak St" page_longitude_only = Ok (Some d) /\
    (latitude d <> None <->
     re_search re_latitude page_longitude_only <> None) /\
    (longitude d <> None <->
     re_search re_longitude page_longitude_only <> None).
Proof.
  eexists. split; [vm_compute; reflexivity|].
  apply (coordinates_looked_up_separately "12 Oak St" page_longitude_only).
  vm_compute. reflexivity.
Defined.

(** ** The comp loop *)

Lemma chars_app a b : chars (a +:+ b) = chars a ++ chars b.
Proof. induction a as [|c a IH]; simpl; [reflexivity|]. unfold chars in *. simpl. f_equal. exact IH. Qed.

Lemma text_chars s : text (chars s) = s.
Proof. apply string_of_list_ascii_of_string. Qed.

Lemma chars_text l : chars (text l) = l.
Proof. apply list_ascii_of_string_of_list_ascii. Qed.

Lemma starts_with_spec p l :
  starts_with p l = true <-> exists b, l = p ++ b.
Proof.
  revert l. induction p as [|a p IH]; intros l; simpl.
  - split; [intros _; exists l; reflexivity | reflexivity].
  - destruct l as [|c l].
    + split; [discriminate | intros [b H]; discriminate].
    + rewrite andb_true_iff, IH. unfold ascii_eqb. rewrite Ascii.eqb_eq.
      split.
      * intros [-> [b ->]]. exists b. reflexivity.
      * intros [b H]. inversion H; subst. split; [reflexivity | eauto].
Qed.

Lemma contains_spec p l :
  contains p l = true <-> exists a b, l = a ++ p ++ b.
Proof.
  induction l as [|c l IH].
  - simpl. rewrite orb_false_r, starts_with_spec. split.
    + intros [b H]. exists [], b. exact H.
    + intros [a [b H]]. destruct a; simpl in H; [eauto|discriminate].
  - simpl. rewrite orb_true_iff, starts_with_spec, IH. split.
    + intros [[b H]|[a [b H]]].
      * exists [], b. exact H.
      * exists (c :: a), b. simpl. f_equal. exact H.
    + intros [a [b H]]. destruct a as [|x a]; simpl in H.
      * left. eauto.
      * right. inversion H; subst. eauto.
Qed.

Lemma within_sq_ft_low s c :
  fle (fmul (FFin 0.8) (float_of_int s)) (float_of_int c) = true <->
  4 * s <= 5 * c.
Proof.
  simpl. rewrite Qle_bool_iff. unfold Qle. simpl. lia.
Qed.

Lemma within_sq_ft_high s c :
  fle (float_of_int c) (fmul (FFin 1.2) (float_of_int s)) = true <->
  5 * c <= 6 * s.
Proof.
  simpl. rewrite Qle_bool_iff. unfold Qle. simpl. lia.
Qed.

Lemma within_one_bath f ba :
  fle (fabs (fsub f (float_of_int ba))) (float_of_int 1) = true <->
  exists q, f = FFin q /\ (Qabs (q - inject_Z ba) <= 1)%Q.
Proof.
  destruct f as [|n|q]; simpl.
  - split; [discriminate | intros [q [H _]]; discriminate].
  - split; [discriminate | intros [q [H _]]; discriminate].
  - rewrite Qle_bool_iff. split.
    + intros H. exists q. split; [reflexivity | exact H].
    + intros [q' [H1 H2]]. inversion H1; subst. exact H2.
Qed.

(** The test of lines 105 and 106, spelled out. *)
Lemma similar_spec b ba s c :
  similar b ba s c = true <->
  Z.abs (Beds c - b) <= 1 /\
  (exists q, Baths c = FFin q /\ (Qabs (q - inject_Z ba) <= 1)%Q) /\
  (4 * s <= 5 * Sq_Ft c /\ 5 * Sq_Ft c <= 6 * s) /\
  Sold_Date c <> "" /\
  (exists before after, Sold_Date c = before +:+ "2025" +:+ after).
Proof.
  unfold similar. rewrite !andb_true_iff.
  rewrite Z.leb_le, within_one_bath, within_sq_ft_low, within_sq_ft_high.
  rewrite negb_true_iff, String.eqb_neq, contains_spec.
  assert (Hc : (exists a z, chars (Sold_Date c) = a ++ chars "2025" ++ z) <->
               (exists before after,
                   Sold_Date c = before +:+ "2025" +:+ after)).
  { split.
    - intros [a [z H]]. exists (text a), (text z).
      rewrite <- (text_chars (Sold_Date c)), H.
      rewrite <- (text_chars (text a +:+ "2025" +:+ text z)).
      rewrite !chars_app, !chars_text. reflexivity.
    - intros [x [y H]]. exists (chars x), (chars y).
      rewrite H, !chars_app. reflexivity. }
  rewrite Hc. tauto.
Qed.

Lemma collect_comps_In b ba s cards rows :
  collect_comps b ba s cards = Ok rows ->
  forall c, In c rows <->
            exists card, In card cards /\ parse_card card = Ok c /\
                         similar b ba s c = true.
Proof.
  revert rows. induction cards as [|card cards IH]; simpl; intros rows H c.
  - inversion H; subst. simpl. split; [tauto | intros [? [[] _]]].
  - destruct (parse_card card) as [c0|] eqn:P; [|discriminate]. simpl in H.
    destruct (collect_comps b ba s cards) as [kept|] eqn:K; [|discriminate].
    simpl in H. inversion H; subst. specialize (IH kept eq_refl c).
    destruct (similar b ba s c0) eqn:S0.
    + simpl. rewrite IH. split.
      * intros [->|[card' [Hin Hp]]]; [exists card; auto | exists card'; tauto].
      * intros [card' [[->|Hin] [Hp Hs]]].
        -- left. congruence.
        -- right. eauto.
    + rewrite IH. split.
      * intros [card' [Hin Hp]]. exists card'. tauto.
      * intros [card' [[->|Hin] [Hp Hs]]]; [congruence | eauto].
Qed.



Lemma parse_card_nonneg card c :
  parse_card card = Ok c -> 0 <= Sq_Ft c /\ 0 <= Sold_Price c.
Proof.
  unfold parse_card. intros H.
  destruct (match card_beds card with Some _ => _ | None => _ end);
    [|discriminate].
  simpl in H.
  destruct (match card_baths card with Some _ => _ | None => _ end);
    [|discriminate].
  simpl in H.
  destruct (int_field_commas re_comp_sq_ft (card_text card)) as [sq|] eqn:Hsq;
    [|discriminate].
  destruct (int_field_commas re_sold_price (card_text card)) as [pr|] eqn:Hpr;
    [|discriminate].
  simpl in H. inversion H; subst; simpl. split.
  - eapply int_field_commas_nonneg; [apply re_comp_sq_ft_captures | eauto].
  - eapply int_field_commas_nonneg; [apply re_sold_price_captures | eauto].
Qed.

(** C8 as stated fails: for a target whose page gave no counts (all
    zero), a card whose bedroom element reads '-1 bd' passes the filter
    and its row carries the bedroom count -1. *)
Lemma comp_row_with_negative_beds :
  exists d c,
    details_of_page "12 Oak St" page_plain = Ok (Some d) /\
    collect_comps (beds d) (baths d) (sq_ft d) [card_minus_one] = Ok [c] /\
    Beds c < 0.
Proof.
  eexists. eexists. split; [vm_compute; reflexivity|].
  split; [vm_compute; reflexivity|]. simpl. lia.
Qed.

(** C8, amended.  Every count of the target record (bedrooms, bathrooms,
    square footage, lot size, year built) is non-negative, and so are the
    square footage and the sold price of every comp row.  The bedroom and
    bathroom counts of a comp row are only known to be within 1 of the
    target's, hence at least -1. *)
Theorem numeric_fields_lower_bounds addr html d cards rows c :
  extract_details addr html = Ok d ->
  collect_comps (beds d) (baths d) (sq_ft d) cards = Ok rows ->
  In c rows ->
  (0 <= beds d /\ 0 <= baths d /\ 0 <= sq_ft d /\ 0 <= lot_size d /\
   0 <= year_built d) /\
  0 <= Sq_Ft c /\ 0 <= Sold_Price c /\
  -1 <= Beds c /\ fle (FFin (-1)) (Baths c) = true.
Proof.
  intros Hd Hc Hin.
  pose proof (extract_details_nonneg _ _ _ Hd) as Hn.
  split; [exact Hn|].
  destruct Hn as (Hb & Hba & _).
  apply (collect_comps_In _ _ _ _ _ Hc) in Hin.
  destruct Hin as (card & _ & Hp & Hs).
  apply parse_card_nonneg in Hp. destruct Hp as [Hsq Hpr].
  apply similar_spec in Hs.
  destruct Hs as (Hbeds & (q & Hq & Habs) & _).
  repeat split; try assumption.
  - lia.
  - rewrite Hq. simpl. apply Qle_bool_iff.
    apply Qabs_Qle_condition in Habs. destruct Habs as [Hlo _].
    assert (Hz : (0 <= inject_Z (baths d))%Q)
      by (unfold Qle; simpl; lia).
    lra.
Qed.

Lemma numeric_fields_lower_bounds_witness :
  exists d rows c,
    extract_details "12 Oak St" page_listing = Ok d /\
    collect_comps (beds d) (baths d) (sq_ft d) [card_similar] = Ok rows /\
    In c rows /\
    (0 <= beds d /\ 0 <= baths d /\ 0 <= sq_ft d /\ 0 <= lot_size d /\
     0 <= year_built d) /\
    0 <= Sq_Ft c /\ 0 <= Sold_Price c /\
    -1 <= Beds c /\ fle (FFin (-1)) (Baths c) = true.
Proof.
  eexists. eexists. eexists.
  split; [vm_compute; reflexivity|].
  split; [vm_compute; reflexivity|].
  split; [left; reflexivity|].
  eapply (numeric_fields_lower_bounds "12 Oak St" page_listing)
    with (cards := [card_similar]).
  - vm_compute; reflexivity.
  - vm_compute; reflexivity.
  - left; reflexivity.
Defined.

(** ** The estimator *)

Lemma numeric_values_ints (ps : list Z) :
  numeric_values (map CInt ps) = Ok (map float_of_int ps).
Proof.
  induction ps as [|p ps IH]; simpl; [reflexivity|].
  rewrite IH. reflexivity.
Qed.

Lemma calculate_arv_frame comps :
  comps <> [] ->
  calculate_arv (pd_DataFrame comps) =
  Ok (median_of (map float_of_int (map Sold_Price comps))).
Proof.
  intros Hne. destruct comps as [|c comps]; [contradiction|].
  unfold calculate_arv, pd_DataFrame.
  cbn [df_empty has_column existsb column fst negb andb orb map].
  change (String.eqb "Address" "Sold Price") with false.
  change (String.eqb "Beds" "Sold Price") with false.
  change (String.eqb "Baths" "Sold Price") with false.
  change (String.eqb "Sq Ft" "Sold Price") with false.
  change (String.eqb "Sold Date" "Sold Price") with false.
  change (String.eqb "Sold Price" "Sold Price") with true.
  cbn [orb andb negb].
  unfold series_median.
  change (CInt (Sold_Price c) :: map (fun c0 => CInt (Sold_Price c0)) comps)
    with (map (fun c0 => CInt (Sold_Price c0)) (c :: comps)).
  rewrite <- (map_map Sold_Price CInt), numeric_values_ints.
  reflexivity.
Qed.

(** *** The value [median_of] returns sits in the middle *)

Lemma insert_Z_perm x l : Permutation (x :: l) (insert_Z x l).
Proof.
  induction l as [|y l IH]; simpl; [reflexivity|].
  destruct (x <=? y); [reflexivity|].
  rewrite perm_swap. apply perm_skip, IH.
Qed.

Lemma sort_Z_perm l : Permutation l (sort_Z l).
Proof.
  induction l as [|x l IH]; simpl; [reflexivity|].
  rewrite <- insert_Z_perm. apply perm_skip, IH.
Qed.

Lemma insert_Z_sorted x l :
  StronglySorted Z.le l -> StronglySorted Z.le (insert_Z x l).
Proof.
  induction 1 as [|y l Hs IH Hy]; simpl.
  - repeat constructor.
  - destruct (x <=? y) eqn:Hxy.
    + apply Z.leb_le in Hxy. constructor.
      * constructor; assumption.
      * constructor; [exact Hxy|].
        eapply Forall_impl; [|exact Hy]. intros z Hz. simpl in Hz. lia.
    + apply Z.leb_gt in Hxy. constructor; [exact IH|].
      rewrite <- insert_Z_perm. constructor; [lia | exact Hy].
Qed.

Lemma sort_Z_sorted l : StronglySorted Z.le (sort_Z l).
Proof.
  induction l as [|x l IH]; simpl; [constructor|].
  apply insert_Z_sorted, IH.
Qed.

Lemma fle_ints a b : fle (float_of_int a) (float_of_int b) = (a <=? b).
Proof.
  simpl. unfold Qle_bool. simpl. rewrite !Z.mul_1_r. reflexivity.
Qed.

Lemma sort_floats_ints ps :
  sort_floats (map float_of_int ps) = map float_of_int (sort_Z ps).
Proof.
  induction ps as [|p ps IH]; simpl; [reflexivity|].
  unfold sort_floats in *. rewrite IH. clear IH.
  induction (sort_Z ps) as [|y l IHl]; [reflexivity|].
  cbn [map insert_sorted insert_Z]. rewrite fle_ints.
  destruct (p <=? y); [reflexivity|].
  cbn [map]. f_equal. exact IHl.
Qed.












(** C3: sold prices 200000, 250000, 300000 give 250000; no row at all
    gives 0; the two prices 100000 and 200000 give their mean 150000. *)
Theorem calculate_arv_examples comps3 comps2 :
  map Sold_Price comps3 = [200000; 250000; 300000] ->
  map Sold_Price comps2 = [100000; 200000] ->
  (exists f, calculate_arv (pd_DataFrame comps3) = Ok f /\
             feq f (FFin 250000)) /\
  calculate_arv (pd_DataFrame []) = Ok (FFin 0) /\
  (exists f, calculate_arv (pd_DataFrame comps2) = Ok f /\
             feq f (FFin 150000)).
Proof.
  intros H3 H2. repeat split.
  - eexists. split.
    + rewrite calculate_arv_frame, H3; [reflexivity|].
      intros ->. discriminate.
    + vm_compute. reflexivity.
  - eexists. split.
    + rewrite calculate_arv_frame, H2; [reflexivity|].
      intros ->. discriminate.
    + vm_compute. reflexivity.
Qed.

Lemma calculate_arv_examples_witness :
  (exists f, calculate_arv
               (pd_DataFrame (map comp_priced [200000; 250000; 300000]))
             = Ok f /\ feq f (FFin 250000)) /\
  calculate_arv (pd_DataFrame []) = Ok (FFin 0) /\
  (exists f, calculate_arv (pd_DataFrame (map comp_priced [100000; 200000]))
             = Ok f /\ feq f (FFin 150000)).
Proof.
  apply (calculate_arv_examples
           (map comp_priced [200000; 250000; 300000])
           (map comp_priced [100000; 200000])); reflexivity.
Defined.




(** ** The search URL *)

(** The literal is well formed up to the doubled brace after field 8;
    the next character is a closing brace on its own. *)
Lemma url_literal_stray_brace :
  search_url_literal = url_literal_head +:+ url_literal_tail /\
  returns (fstring_pieces url_literal_head) /\
  fstring_pieces search_url_literal = Raise SyntaxError.
Proof.
  split; [vm_compute; reflexivity|]. split.
  - eexists. vm_compute. reflexivity.
  - vm_compute. reflexivity.
Qed.

Lemma search_url_rejected float_repr address lat lon b ba s lot yb :
  search_url float_repr address lat lon b ba s lot yb = Raise SyntaxError.
Proof.
  unfold search_url.
  destruct url_literal_stray_brace as (_ & _ & ->). reflexivity.
Qed.

(** C1, on the code: the literal of line 82 is rejected, so no URL is
    built for any target.  Besides, the literal numbers its fields 0 to
    9 while [.format] is handed eleven arguments: the year field 4
    receives only the lower year, and the bounds west, east, south and
    north (fields 5 to 8) receive the upper year, lon - 0.01, lon + 0.01
    and lat - 0.01. *)
Theorem search_url_not_built (float_repr : pyfloat -> string)
        (address : string) (lat lon : pyfloat)
        (beds baths sq_ft lot_size year_built : Z) :
  search_url float_repr address (Some lat) (Some lon) beds baths sq_ft
    lot_size year_built = Raise SyntaxError /\
  contains (chars year_fragment) (chars search_url_literal) = true /\
  contains (chars bounds_fragment) (chars search_url_literal) = true /\
  exists args,
    format_args float_repr address (Some lat) (Some lon) beds baths sq_ft
      lot_size year_built = Ok args /\
    nth_error args 4 = Some (VInt (year_built - 10)) /\
    nth_error args 5 = Some (VInt (year_built + 10)) /\
    nth_error args 6 = Some (VFloat (fsub lon (FFin 0.01))) /\
    nth_error args 7 = Some (VFloat (fadd lon (FFin 0.01))) /\
    nth_error args 8 = Some (VFloat (fsub lat (FFin 0.01))) /\
    nth_error args 9 = Some (VFloat (fadd lat (FFin 0.01))).
Proof.
  split.
  - apply search_url_rejected.
  - split; [vm_compute; reflexivity|].
    split; [vm_compute; reflexivity|].
    eexists. split; [reflexivity|]. repeat split.
Qed.

(** ** The page fetcher *)

Section ScriptProperties.
Context {E : Env}.

Lemma fetch_zillow_page_result url w :
  snd (fetch_zillow_page url w) =
  match requests_get (clock w + 2) url with
  | Ok response =>
      if status_code response =? 200 then Ok (body response) else Ok ""
  | Raise e => Raise e
  end.
Proof.
  unfold fetch_zillow_page, mbind, sleep, log_request. simpl.
  destruct (requests_get (clock w + 2) url) as [r|e]; [|reflexivity].
  destruct (status_code r =? 200); reflexivity.
Qed.

Lemma fetch_zillow_page_world url w :
  let w' := fst (fetch_zillow_page url w) in
  requests w' = url :: requests w /\
  clock w' = clock w + 2 /\
  memo_details w' = memo_details w.
Proof.
  unfold fetch_zillow_page, mbind, sleep, log_request. simpl.
  destruct (requests_get (clock w + 2) url) as [r|e]; [|simpl; auto].
  destruct (status_code r =? 200); simpl; auto.
Qed.

Lemma get_property_details_body_result address w :
  snd (get_property_details_body address w) =
  match snd (fetch_zillow_page (details_url address) w) with
  | Ok html => details_of_page address html
  | Raise e => Raise e
  end.
Proof.
  unfold get_property_details_body, mbind at 1.
  destruct (fetch_zillow_page (details_url address) w) as [w1 [html|e]];
    [|reflexivity].
  simpl. unfold mbind, lift.
  destruct (details_of_page address html) as [[d|]|e]; try reflexivity.
  destruct (partial_details d); reflexivity.
Qed.

Lemma get_property_details_body_world address w :
  let w' := fst (get_property_details_body address w) in
  requests w' = details_url address :: requests w /\
  memo_details w' = memo_details w.
Proof.
  pose proof (fetch_zillow_page_world (details_url address) w) as F.
  cbv zeta in *. unfold get_property_details_body, mbind, lift.
  destruct (fetch_zillow_page (details_url address) w) as [w1 [html|e]];
    simpl in *; [|tauto].
  destruct (details_of_page address html) as [[d|]|e]; simpl; try tauto.
  destruct (partial_details d); simpl; tauto.
Qed.

(** ** The memo *)

Lemma cache_data_hit {V : Type} ttl get set (f : string -> M V) key w entry :
  get w !! key = Some entry ->
  clock w < stored_at entry + ttl ->
  cache_data ttl get set f key w =
  (fst (emit_all (memo_replay entry) w), Ok (memo_value entry)).
Proof.
  intros Hl Ht. unfold cache_data. rewrite Hl.
  apply Z.ltb_lt in Ht. rewrite Ht. reflexivity.
Qed.

Lemma cache_data_miss {V : Type} ttl get set (f : string -> M V) key w :
  ~ has_live_entry ttl (get w) key (clock w) ->
  cache_data ttl get set f key w =
  match f key w with
  | (w', Ok v) =>
      (set (<[key := {| stored_at := clock w'; memo_value := v;
                        memo_replay := drop (length (page w)) (page w') |}]>
              (get w')) w', Ok v)
  | (w', Raise e) => (w', Raise e)
  end.
Proof.
  intros Hn. unfold cache_data.
  destruct (get w !! key) as [entry|] eqn:Hl; [|reflexivity].
  destruct (clock w <? stored_at entry + ttl) eqn:Ht; [|reflexivity].
  exfalso. apply Hn. exists entry. split; [exact Hl|].
  apply Z.ltb_lt, Ht.
Qed.

(** C9: a call of the target-property lookup that computes its result
    issues one fetch and stores the result.  As long as the entry for
    the address is left in place, a later call less than 3600 seconds
    after the storing returns the same result and adds no request; a
    call 3600 seconds or more after it fetches the page again. *)
Theorem memo_within_window address w w1 v w2 :
  ~ has_live_entry 3600 (memo_details w) address (clock w) ->
  get_property_details address w = (w1, Ok v) ->
  memo_details w2 !! address = memo_details w1 !! address ->
  requests w1 = details_url address :: requests w /\
  (clock w2 < clock w1 + 3600 ->
   snd (get_property_details address w2) = Ok v /\
   requests (fst (get_property_details address w2)) = requests w2) /\
  (clock w1 + 3600 <= clock w2 ->
   requests (fst (get_property_details address w2)) =
   details_url address :: requests w2).
Proof.
  intros Hmiss Hcall Hkeep.
  unfold get_property_details in Hcall.
  rewrite cache_data_miss in Hcall by exact Hmiss.
  pose proof (get_property_details_body_world address w) as [Hreq _].
  destruct (get_property_details_body address w) as [w' [v'|e]];
    [|discriminate].
  simpl in Hreq. inversion Hcall; subst v' w1. clear Hcall.
  simpl in Hkeep. rewrite lookup_insert_eq in Hkeep.
  split; [exact Hreq|]. split.
  - intros Hlt. unfold get_property_details.
    erewrite cache_data_hit by (try exact Hkeep; simpl; exact Hlt).
    simpl. auto.
  - intros Hge. unfold get_property_details.
    rewrite cache_data_miss.
    + pose proof (get_property_details_body_world address w2) as [Hreq2 _].
      destruct (get_property_details_body address w2) as [w2' [v2|e]];
        simpl in *; exact Hreq2.
    + intros [entry [Hl Ht]]. rewrite Hkeep in Hl.
      inversion Hl; subst entry. simpl in Ht, Hge. lia.
Qed.



(** ** The button handler *)

Lemma feq_zero_falsy f : feq f (FFin 0) <-> ftruthy f = false.
Proof.
  destruct f as [|n|q]; simpl; try (split; [tauto | discriminate]).
  unfold q_is_zero, Qeq. simpl. rewrite negb_false_iff, Z.eqb_eq. lia.
Qed.

(** C10: when the geocoder hands back coordinates of which one is
    0.0, the handler reports a geocoding failure and stops, before any
    page is requested; it goes on to the target property lookup only
    when neither coordinate is zero. *)
Theorem zero_coordinate_aborts address w w1 lat lon :
  address <> "" ->
  geocode_address address w = (w1, Ok (Some lat, Some lon)) ->
  (feq lat (FFin 0) \/ feq lon (FFin 0) ->
   on_calculate true address w =
   (fst (emit (st_error "Geocoding failed. Check address.") w1),
    Raise StopException)) /\
  (~ feq lat (FFin 0) /\ ~ feq lon (FFin 0) ->
   on_calculate true address w = after_geocoding address w1).
Proof.
  intros Hne Hgeo. apply String.eqb_neq in Hne.
  assert (Hstep : on_calculate true address w =
                  (if coord_falsy (Some lat) || coord_falsy (Some lon)
                   then let! _ := emit (st_error
                                    "Geocoding failed. Check address.") in
                        st_stop
                   else after_geocoding address) w1).
  { unfold on_calculate. rewrite Hne. simpl.
    unfold mbind at 1. rewrite Hgeo. reflexivity. }
  rewrite Hstep. simpl. rewrite !feq_zero_falsy. split.
  - intros [-> | ->]; simpl; [|rewrite orb_true_r]; reflexivity.
  - intros [H1 H2].
    apply not_false_iff_true in H1, H2. rewrite H1, H2. reflexivity.
Qed.
End ScriptProperties.

Lemma memo_within_window_witness :
  exists w1 v,
    @get_property_details env_listing "12 Oak St" world0 = (w1, Ok v) /\
    requests w1 = @details_url env_listing "12 Oak St" :: requests world0 /\
    (clock (later 100 w1) < clock w1 + 3600 ->
     snd (@get_property_details env_listing "12 Oak St" (later 100 w1))
     = Ok v /\
     requests (fst (@get_property_details env_listing "12 Oak St"
                      (later 100 w1)))
     = requests (later 100 w1)) /\
    (clock w1 + 3600 <= clock (later 100 w1) ->
     requests (fst (@get_property_details env_listing "12 Oak St"
                      (later 100 w1)))
     = @details_url env_listing "12 Oak St" :: requests (later 100 w1)).
Proof.
  eexists. eexists. split; [vm_compute; reflexivity|].
  eapply (@memo_within_window env_listing "12 Oak St" world0).
  - intros [entry [Hl _]]. simpl in Hl. rewrite lookup_empty in Hl.
    discriminate.
  - vm_compute; reflexivity.
  - reflexivity.
Defined.



Lemma zero_coordinate_aborts_witness :
  exists w1,
    @geocode_address env_equator "12 Oak St" world0
    = (w1, Ok (Some (FFin 0), Some (FFin 32.5))) /\
    (feq (FFin 0) (FFin 0) \/ feq (FFin 32.5) (FFin 0) ->
     @on_calculate env_equator true "12 Oak St" world0 =
     (fst (emit (st_error "Geocoding failed. Check address.") w1),
      Raise StopException)) /\
    (~ feq (FFin 0) (FFin 0) /\ ~ feq (FFin 32.5) (FFin 0) ->
     @on_calculate env_equator true "12 Oak St" world0 =
     @after_geocoding env_equator "12 Oak St" w1).
Proof.
  eexists. split; [vm_compute; reflexivity|].
  apply (@zero_coordinate_aborts env_equator "12 Oak St" world0).
  - discriminate.
  - vm_compute; reflexivity.
Defined.

(** * Further properties *)

(** ** The matcher and the texts of a pattern *)

Lemma rmatch_lang (r : regex) :
  forall (A : Type) s cap (k : list ascii -> capture -> option A) x,
    rmatch r s cap k = Some x ->
    exists w s' cap', s = w ++ s' /\ lang r w /\ k s' cap' = Some x.
Proof.
  induction r as [c|p|r1 IH1 r2 IH2|r1 IH1|r1 IH1|r1 IH1];
    simpl; intros A s cap k x H.
  - destruct s as [|c' s']; [discriminate|].
    destruct (ascii_eqb c c') eqn:E; [|discriminate].
    apply Ascii.eqb_eq in E. subst c'.
    exists [c], s', cap. repeat split; auto. constructor.
  - destruct s as [|c' s']; [discriminate|].
    destruct (p c') eqn:E; [|discriminate].
    exists [c'], s', cap. repeat split; auto. constructor. exact E.
  - apply IH1 in H. destruct H as (w1 & s1 & cap1 & -> & L1 & H).
    apply IH2 in H. destruct H as (w2 & s2 & cap2 & -> & L2 & H).
    exists (w1 ++ w2), s2, cap2. rewrite <- app_assoc.
    repeat split; auto. constructor; assumption.
  - destruct (rmatch r1 s cap k) eqn:E.
    + inversion H; subst. apply IH1 in E.
      destruct E as (w & s' & cap' & -> & L & E).
      exists w, s', cap'. repeat split; auto. apply lang_opt_take, L.
    + exists [], s, cap. repeat split; auto. constructor.
  - revert H. generalize (length s) at 1. intros fuel. revert s cap.
    induction fuel as [|fuel IHf]; intros s cap H.
    + exists [], s, cap. repeat split; auto. constructor.
    + match type of H with
      | match ?m with _ => _ end = _ => destruct m eqn:E
      end.
      * inversion H; subst.
        apply IH1 in E. destruct E as (w1 & s1 & cap1 & -> & L1 & E).
        destruct (_ <? _)%nat; [|discriminate].
        apply IHf in E. destruct E as (w2 & s2 & cap2 & -> & L2 & E).
        exists (w1 ++ w2), s2, cap2. rewrite <- app_assoc.
        repeat split; auto. apply lang_star_more; assumption.
      * exists [], s, cap. repeat split; auto. constructor.
  - apply IH1 in H. destruct H as (w & s' & cap' & -> & L & H).
    eexists w, s', _. repeat split; eauto. constructor. exact L.
Qed.

Lemma rmatch_keeps_group (Q : list ascii -> Prop) (r : regex) :
  group_lang Q r ->
  forall (A : Type) s cap (k : list ascii -> capture -> option A) x,
    cap_is Q cap ->
    rmatch r s cap k = Some x ->
    exists s' cap', cap_is Q cap' /\ k s' cap' = Some x.
Proof.
  induction r as [c|p|r1 IH1 r2 IH2|r1 IH1|r1 IH1|r1 IH1];
    simpl; intros HP A s cap k x Hc H.
  - destruct s as [|c' s']; [discriminate|].
    destruct (ascii_eqb c c'); [|discriminate]. eauto.
  - destruct s as [|c' s']; [discriminate|].
    destruct (p c'); [|discriminate]. eauto.
  - destruct HP as [HP1 HP2].
    apply (IH1 HP1) in H; auto. destruct H as (s1 & cap1 & Hc1 & H).
    apply (IH2 HP2) in H; auto.
  - destruct (rmatch r1 s cap k) eqn:E.
    + inversion H; subst. eapply IH1; eauto.
    + eauto.
  - revert H. generalize (length s) at 1. intros fuel. revert s cap Hc.
    induction fuel as [|fuel IHf]; intros s cap Hc H.
    + eauto.
    + match type of H with
      | match ?m with _ => _ end = _ => destruct m eqn:E
      end.
      * inversion H; subst.
        apply (IH1 HP) in E; auto. destruct E as (s1 & cap1 & Hc1 & E).
        destruct (_ <? _)%nat; [|discriminate].
        apply IHf in E; auto.
      * eauto.
  - apply rmatch_lang in H.
    destruct H as (w & s' & cap' & -> & L & H).
    exists s'. eexists. split; [|exact H].
    eexists. split; [reflexivity|].
    rewrite length_app.
    replace (length w + length s' - length s')%nat with (length w) by lia.
    rewrite firstn_app, Nat.sub_diag, firstn_all. simpl.
    rewrite app_nil_r. apply HP, L.
Qed.

Lemma rmatch_sets_group (Q : list ascii -> Prop) (r : regex) :
  group_lang Q r -> always_captures r ->
  forall (A : Type) s cap (k : list ascii -> capture -> option A) x,
    rmatch r s cap k = Some x ->
    exists s' cap', cap_is Q cap' /\ k s' cap' = Some x.
Proof.
  induction r as [c|p|r1 IH1 r2 IH2|r1 IH1|r1 IH1|r1 IH1];
    simpl; intros HP HA A s cap k x H; try contradiction.
  - destruct HP as [HP1 HP2]. destruct HA as [HA|HA].
    + apply (IH1 HP1 HA) in H. destruct H as (s1 & cap1 & Hc1 & H).
      eapply rmatch_keeps_group; eauto.
    + apply rmatch_lang in H. destruct H as (w & s1 & cap1 & _ & _ & H).
      eapply IH2; eauto.
  - apply rmatch_lang in H.
    destruct H as (w & s' & cap' & -> & L & H).
    exists s'. eexists. split; [|exact H].
    eexists. split; [reflexivity|].
    rewrite length_app.
    replace (length w + length s' - length s')%nat with (length w) by lia.
    rewrite firstn_app, Nat.sub_diag, firstn_all. simpl.
    rewrite app_nil_r. apply HP, L.
Qed.

Lemma re_search_group (Q : list ascii -> Prop) (r : regex) (html : string) g :
  group_lang Q r -> always_captures r ->
  re_search r html = Some g -> Q g.
Proof.
  intros HP HA. unfold re_search.
  destruct (re_search_from r (chars html)) as [cap|] eqn:E; [|discriminate].
  assert (Hc : cap_is Q cap).
  { clear g. revert E. induction (chars html) as [|c l IH]; simpl.
    - unfold re_match. destruct (rmatch _ _ _ _) eqn:M; [|discriminate].
      intros Heq; inversion Heq; subst.
      apply (rmatch_sets_group Q r HP HA) in M.
      destruct M as (s' & cap' & Hc & M). inversion M; subst. exact Hc.
    - unfold re_match at 1. destruct (rmatch _ _ _ _) eqn:M.
      + intros Heq; inversion Heq; subst.
        apply (rmatch_sets_group Q r HP HA) in M.
        destruct M as (s' & cap' & Hc & M). inversion M; subst. exact Hc.
      + exact IH. }
  destruct Hc as (g' & -> & Hg). intros Heq; inversion Heq; subst. exact Hg.
Qed.






Lemma lang_four_digits w : lang (Rep 4 digit) w -> four_digits w.
Proof.
  simpl. intros L.
  inversion L as [| |? ? w1 x1 L1 M1| | | | |]; subst.
  inversion M1 as [| |? ? w2 x2 L2 M2| | | | |]; subst.
  inversion M2 as [| |? ? w3 x3 L3 M3| | | | |]; subst.
  inversion L1; inversion L2; inversion L3; inversion M3; subst.
  split; [reflexivity|]. repeat constructor; assumption.
Qed.

Ltac group_goals :=
  simpl;
  repeat match goal with
         | |- _ /\ _ => split
         | |- True => exact I
         end.





Lemma re_year_built_group :
  group_lang four_digits re_year_built /\ always_captures re_year_built.
Proof.
  split; [|right; right; exact I]. group_goals; apply lang_four_digits.
Qed.


(** ** [int] on digit texts *)

Lemma digit_facts c :
  is_digit c = true ->
  is_space c = false /\ ascii_eqb c "-" = false /\ ascii_eqb c "+" = false /\
  ascii_eqb c "." = false /\ ascii_eqb c "," = false /\
  0 <= digit_val c <= 9.
Proof.
  destruct c as [[] [] [] [] [] [] [] []]; vm_compute; intros H;
    try discriminate H; repeat split; congruence.
Qed.

Lemma drop_while_keeps l :
  Forall (fun c => is_space c = false) l -> drop_while is_space l = l.
Proof.
  destruct 1 as [|c l Hc Hl]; simpl; [reflexivity|]. rewrite Hc. reflexivity.
Qed.

Lemma strip_keeps l :
  Forall (fun c => is_space c = false) l -> strip l = l.
Proof.
  intros F. unfold strip. rewrite (drop_while_keeps l F).
  rewrite drop_while_keeps by (apply Forall_rev, F). apply rev_involutive.
Qed.

Lemma digit_part_from_all b l :
  Forall (fun c => is_digit c = true) l ->
  l <> [] \/ b = true ->
  digit_part_from b l = Some l.
Proof.
  intros F. revert b. induction F as [|c l Hc Hl IH]; intros b Hb; simpl.
  - destruct Hb as [Hb| ->]; [contradiction | reflexivity].
  - rewrite Hc. rewrite IH by (right; reflexivity). reflexivity.
Qed.

Lemma py_int_digits l : all_digits l -> py_int l = Ok (digits_value l).
Proof.
  intros [Hne F]. unfold py_int.
  rewrite strip_keeps.
  2:{ eapply Forall_impl; [|exact F]. intros c Hc. apply digit_facts, Hc. }
  destruct l as [|c t]; [contradiction|].
  inversion F as [|? ? Hc Ht]; subst.
  destruct (digit_facts c Hc) as (_ & Hm & Hp & _).
  unfold split_sign. rewrite Hm, Hp. unfold digit_part.
  rewrite digit_part_from_all by (auto; left; discriminate). reflexivity.
Qed.





Lemma py_int_only_value_error l e : py_int l = Raise e -> e = ValueError.
Proof.
  unfold py_int. destruct (split_sign (strip l)) as [neg body].
  destruct (digit_part body); [discriminate|]. congruence.
Qed.




Lemma four_digits_value w :
  four_digits w -> py_int w = Ok (digits_value w) /\ 0 <= digits_value w <= 9999.
Proof.
  intros [Hlen F]. split.
  - apply py_int_digits. split; [|exact F]. destruct w; [discriminate|discriminate].
  - destruct w as [|a [|b [|c [|d [|? ?]]]]]; try discriminate.
    inversion F as [|? ? Ha F1]; subst. inversion F1 as [|? ? Hb F2]; subst.
    inversion F2 as [|? ? Hc F3]; subst. inversion F3 as [|? ? Hd F4]; subst.
    apply digit_facts in Ha, Hb, Hc, Hd.
    unfold digits_value. simpl. lia.
Qed.

(** ** When the target property extractor raises *)




Lemma year_field_value html :
  exists yb, int_field re_year_built html = Ok yb /\ 0 <= yb <= 9999.
Proof.
  unfold int_field.
  destruct (re_search re_year_built html) as [g|] eqn:S.
  - destruct re_year_built_group as [Hg Ha].
    apply (re_search_group _ _ _ _ Hg Ha) in S.
    destruct (four_digits_value g S) as [-> B]. eauto.
  - exists 0. split; [reflexivity | lia].
Qed.


(** X2: the year built of a target record is at most 9999. *)
Theorem year_built_four_digits addr html d :
  extract_details addr html = Ok d -> 0 <= year_built d <= 9999.
Proof.
  unfold extract_details. intros H.
  destruct (int_field re_beds html); [|discriminate].
  destruct (int_field re_baths html); [|discriminate].
  destruct (int_field_commas re_sq_ft html); [|discriminate].
  destruct (int_field_commas re_lot_size html); [|discriminate].
  destruct (int_field re_year_built html) as [yb|] eqn:Hyb; [|discriminate].
  simpl in H.
  destruct (float_field re_latitude html); [|discriminate].
  destruct (float_field re_longitude html); [|discriminate].
  simpl in H. inversion H; subst; simpl. clear H.
  destruct (year_field_value html) as (y & Hy & B).
  rewrite Hy in Hyb. inversion Hyb; subst. exact B.
Qed.

Lemma year_built_four_digits_witness :
  exists d, extract_details "12 Oak St" page_listing = Ok d /\
            0 <= year_built d <= 9999.
Proof.
  eexists. split; [vm_compute; reflexivity|].
  eapply (year_built_four_digits "12 Oak St" page_listing).
  vm_compute; reflexivity.
Defined.


(** ** More on the comp loop *)

(** X4: the rows the loop returns are the rows read off the cards, one
    per card and in page order, with those failing the similarity test
    left out; nothing is reordered or added. *)
Theorem comps_are_filtered_in_page_order b ba s cards rows :
  collect_comps b ba s cards = Ok rows ->
  exists parsed,
    Forall2 (fun card c => parse_card card = Ok c) cards parsed /\
    rows = List.filter (similar b ba s) parsed.
Proof.
  revert rows. induction cards as [|card cards IH]; simpl; intros rows H.
  - inversion H; subst. exists []. split; [constructor | reflexivity].
  - destruct (parse_card card) as [c|] eqn:P; [|discriminate]. simpl in H.
    destruct (collect_comps b ba s cards) as [kept|]; [|discriminate].
    simpl in H. inversion H; subst.
    destruct (IH kept eq_refl) as (parsed & F & ->).
    exists (c :: parsed). split; [constructor; assumption|].
    simpl. destruct (similar b ba s c); reflexivity.
Qed.

Lemma comps_are_filtered_in_page_order_witness :
  exists rows parsed,
    collect_comps 3 2 1500 [card_similar; card_minus_one] = Ok rows /\
    Forall2 (fun card c => parse_card card = Ok c)
            [card_similar; card_minus_one] parsed /\
    rows = List.filter (similar 3 2 1500) parsed.
Proof.
  eexists.
  destruct (comps_are_filtered_in_page_order 3 2 1500
              [card_similar; card_minus_one] _ eq_refl) as (parsed & F & E).
  exists parsed. split; [vm_compute; reflexivity|]. split; [exact F|exact E].
Defined.


Example studio_card_loses_every_row :
  collect_comps 3 2 1500 [card_similar; card_studio] = Raise ValueError.
Proof. vm_compute. reflexivity. Qed.

(** X6: for a target whose square footage is unknown (0), the only rows
    kept are those whose own square footage is 0, that is, cards on
    which the square-footage pattern found nothing or found zero. *)
Theorem unknown_target_size_keeps_sizeless_rows b ba cards rows c :
  collect_comps b ba 0 cards = Ok rows ->
  In c rows ->
  Sq_Ft c = 0.
Proof.
  intros H Hin. apply (collect_comps_In _ _ _ _ _ H) in Hin.
  destruct Hin as (card & _ & _ & Hs). apply similar_spec in Hs.
  destruct Hs as (_ & _ & [Hlo Hhi] & _). lia.
Qed.

Lemma unknown_target_size_keeps_sizeless_rows_witness :
  exists rows c,
    collect_comps 0 0 0 [card_similar; card_no_sq_ft] = Ok rows /\
    In c rows /\ Sq_Ft c = 0.
Proof.
  eexists. eexists. split; [vm_compute; reflexivity|].
  split; [left; reflexivity|].
  eapply (unknown_target_size_keeps_sizeless_rows 0 0
            [card_similar; card_no_sq_ft]).
  - vm_compute; reflexivity.
  - left; reflexivity.
Defined.



Example nan_baths_card_is_read_and_dropped :
  (exists c, parse_card card_nan_baths = Ok c /\ Baths c = FNan) /\
  collect_comps 3 2 1500 [card_nan_baths] = Ok [].
Proof.
  split; [eexists; split; vm_compute; reflexivity | vm_compute; reflexivity].
Qed.

(** ** More on the estimator *)

Lemma sorted_perm_unique (l1 l2 : list Z) :
  StronglySorted Z.le l1 -> StronglySorted Z.le l2 ->
  Permutation l1 l2 -> l1 = l2.
Proof.
  intros S1. revert l2. induction S1 as [|x l1 S1 IH F1]; intros l2 S2 P.
  - apply Permutation_nil in P. congruence.
  - destruct S2 as [|y l2 S2 F2].
    + apply Permutation_sym, Permutation_nil in P. discriminate.
    + assert (Hxy : x = y).
      { rewrite Forall_forall in F1, F2.
        assert (Hx : In x (y :: l2))
          by (eapply Permutation_in; [exact P | left; reflexivity]).
        assert (Hy : In y (x :: l1))
          by (eapply Permutation_in;
              [apply Permutation_sym; exact P | left; reflexivity]).
        destruct Hx as [Hx|Hx]; [congruence|].
        destruct Hy as [Hy|Hy]; [congruence|].
        apply F2 in Hx. apply F1 in Hy. lia. }
      subst y. f_equal. apply IH; [exact S2|].
      eapply Permutation_cons_inv; exact P.
Qed.

Lemma sort_Z_perm_eq (l1 l2 : list Z) :
  Permutation l1 l2 -> sort_Z l1 = sort_Z l2.
Proof.
  intros P. apply sorted_perm_unique; try apply sort_Z_sorted.
  rewrite <- (sort_Z_perm l1), <- (sort_Z_perm l2). exact P.
Qed.

(** X8: the estimate does not depend on the order of the rows. *)
Theorem calculate_arv_ignores_row_order comps1 comps2 :
  Permutation comps1 comps2 ->
  calculate_arv (pd_DataFrame comps1) = calculate_arv (pd_DataFrame comps2).
Proof.
  intros P. destruct comps1 as [|c1 comps1].
  - apply Permutation_nil in P. subst. reflexivity.
  - destruct comps2 as [|c2 comps2].
    + apply Permutation_sym, Permutation_nil in P. discriminate.
    + rewrite !calculate_arv_frame by discriminate. f_equal.
      unfold median_of. rewrite !sort_floats_ints.
      rewrite (sort_Z_perm_eq (map Sold_Price (c1 :: comps1))
                              (map Sold_Price (c2 :: comps2)));
        [reflexivity|].
      apply Permutation_map, P.
Qed.

Lemma calculate_arv_ignores_row_order_witness :
  calculate_arv (pd_DataFrame (map comp_priced [300000; 0; 200000])) =
  calculate_arv (pd_DataFrame (map comp_priced [0; 200000; 300000])).
Proof.
  apply calculate_arv_ignores_row_order. simpl.
  eapply perm_trans; [apply perm_swap|].
  eapply perm_trans; [apply perm_skip, perm_swap|]. reflexivity.
Defined.






(** ** More on the geocoder, the fetcher and the memo *)

Section ScriptFurther.
Context {E : Env}.

Lemma geocode_address_body_cases address w :
  exists w' r,
    geocode_address_body address w = (w', Ok r) /\ paired r /\
    requests w' = requests w /\ clock w' = clock w /\
    memo_geocode w' = memo_geocode w /\ memo_details w' = memo_details w /\
    memo_comps w' = memo_comps w.
Proof.
  unfold geocode_address_body, paired.
  destruct (nominatim (clock w) address) as [[[lat lon]|]|e];
    eexists; eexists; (split; [reflexivity|]); simpl; repeat split; eauto.
Qed.

(** X11: the geocoder never raises and never hands back one coordinate
    without the other, also when its answer comes from the memo: if
    every stored result is paired, so is the result of a call, and every
    stored result is paired afterwards.  A call requests no page. *)
Theorem geocode_address_paired address w :
  geocode_memo_paired w ->
  exists w' r,
    geocode_address address w = (w', Ok r) /\ paired r /\
    geocode_memo_paired w' /\ requests w' = requests w.
Proof.
  intros Inv. unfold geocode_address, cache_data.
  destruct (geocode_address_body_cases address w)
    as (w1 & r & Hb & Hp & Hreq & _ & Hm & _).
  destruct (memo_geocode w !! address) as [entry|] eqn:Hl.
  - destruct (clock w <? stored_at entry + 3600).
    + eexists. eexists. split; [reflexivity|]. simpl.
      split; [exact (Inv _ _ Hl)|]. split; [exact Inv | reflexivity].
    + rewrite Hb. eexists. eexists. split; [reflexivity|].
      split; [exact Hp|]. split; [|exact Hreq].
      intros key en. simpl. rewrite Hm, lookup_insert.
      destruct (decide (address = key)) as [->|Hne].
      * intros Heq. inversion Heq; subst. exact Hp.
      * apply Inv.
  - rewrite Hb. eexists. eexists. split; [reflexivity|].
    split; [exact Hp|]. split; [|exact Hreq].
    intros key en. simpl. rewrite Hm, lookup_insert.
    destruct (decide (address = key)) as [->|Hne].
    + intros Heq. inversion Heq; subst. exact Hp.
    + apply Inv.
Qed.
End ScriptFurther.

Lemma geocode_address_paired_witness :
  exists w' r,
    @geocode_address env_listing "12 Oak St" world0 = (w', Ok r) /\
    paired r /\ geocode_memo_paired w' /\ requests w' = requests world0.
Proof.
  apply (@geocode_address_paired env_listing "12 Oak St" world0).
  intros key entry H. simpl in H. rewrite lookup_empty in H. discriminate.
Defined.

Section ScriptFrames.
Context {E : Env}.

Lemma fetch_zillow_page_frame url w :
  memo_geocode (fst (fetch_zillow_page url w)) = memo_geocode w /\
  memo_details (fst (fetch_zillow_page url w)) = memo_details w /\
  memo_comps (fst (fetch_zillow_page url w)) = memo_comps w.
Proof.
  unfold fetch_zillow_page, mbind, sleep, log_request. simpl.
  destruct (requests_get (clock w + 2) url) as [r|e]; [|simpl; auto].
  destruct (status_code r =? 200); simpl; auto.
Qed.

Lemma fetch_zillow_page_page url w :
  match requests_get (clock w + 2) url with
  | Ok response =>
      if status_code response =? 200
      then page (fst (fetch_zillow_page url w)) = page w
      else page (fst (fetch_zillow_page url w)) =
           page w ++ [fetch_error url (status_code response)]
  | Raise e =>
      page (fst (fetch_zillow_page url w)) = page w /\
      snd (fetch_zillow_page url w) = Raise e
  end.
Proof.
  unfold fetch_zillow_page, mbind, sleep, log_request. simpl.
  destruct (requests_get (clock w + 2) url) as [r|e]; [|simpl; auto].
  destruct (status_code r =? 200); reflexivity.
Qed.

Lemma get_property_details_body_frame address w :
  memo_geocode (fst (get_property_details_body address w)) = memo_geocode w /\
  memo_comps (fst (get_property_details_body address w)) = memo_comps w.
Proof.
  pose proof (fetch_zillow_page_frame (details_url address) w) as F.
  unfold get_property_details_body, mbind, lift.
  destruct (fetch_zillow_page (details_url address) w) as [w1 [html|e]];
    simpl in *; [|tauto].
  destruct (details_of_page address html) as [[d|]|e]; simpl; try tauto.
  destruct (partial_details d); simpl; tauto.
Qed.

Lemma get_property_details_frame address w :
  memo_geocode (fst (get_property_details address w)) = memo_geocode w /\
  memo_comps (fst (get_property_details address w)) = memo_comps w /\
  (forall other, other <> address ->
     memo_details (fst (get_property_details address w)) !! other =
     memo_details w !! other) /\
  (forall key, is_Some (memo_details w !! key) ->
     is_Some (memo_details (fst (get_property_details address w)) !! key)).
Proof.
  pose proof (get_property_details_body_frame address w) as [Fg Fc].
  pose proof (get_property_details_body_world address w) as [_ Fd].
  unfold get_property_details, cache_data.
  assert (Hcompute :
    let r := match get_property_details_body address w with
             | (w', Ok v) =>
                 (set_memo_details
                    (<[address := {| stored_at := clock w'; memo_value := v;
                                     memo_replay :=
                                       drop (length (page w)) (page w') |}]>
                       (memo_details w')) w', Ok v)
             | (w', Raise e) => (w', Raise e)
             end in
    memo_geocode (fst r) = memo_geocode w /\
    memo_comps (fst r) = memo_comps w /\
    (forall other, other <> address ->
       memo_details (fst r) !! other = memo_details w !! other) /\
    (forall key, is_Some (memo_details w !! key) ->
       is_Some (memo_details (fst r) !! key))).
  { destruct (get_property_details_body address w) as [w1 [v|e]];
      simpl in *.
    - repeat split; auto.
      + intros other Hne. rewrite lookup_insert_ne by congruence.
        rewrite Fd. reflexivity.
      + intros key Hs. rewrite lookup_insert.
        destruct (decide (address = key)); [eauto|]. rewrite Fd. exact Hs.
    - rewrite Fd. repeat split; auto. }
  destruct (memo_details w !! address) as [entry|] eqn:Hl; [|exact Hcompute].
  destruct (clock w <? stored_at entry + 3600); [|exact Hcompute].
  simpl. repeat split; auto.
Qed.

End ScriptFrames.

Section ScriptBehaviour.
Context {E : Env}.

Lemma geocode_failure_body address w :
  (forall lat lon, nominatim (clock w) address <> Ok (Some (lat, lon))) ->
  snd (geocode_address_body address w) = Ok (None, None) /\
  clock (fst (geocode_address_body address w)) = clock w /\
  requests (fst (geocode_address_body address w)) = requests w /\
  memo_geocode (fst (geocode_address_body address w)) = memo_geocode w.
Proof.
  intros Hn. unfold geocode_address_body.
  destruct (nominatim (clock w) address) as [[[lat lon]|]|e]; simpl; auto.
  exfalso. apply (Hn lat lon). reflexivity.
Qed.

(** X12: a geocoding failure is memoized like a success.  After a call
    that found no coordinates (the service found nothing, or raised), a
    call for the same address less than 3600 seconds later answers 'no
    coordinates' from the memo, whatever the service would answer by
    then. *)
Theorem failed_geocoding_is_remembered address w w2 :
  ~ has_live_entry 3600 (memo_geocode w) address (clock w) ->
  (forall lat lon, nominatim (clock w) address <> Ok (Some (lat, lon))) ->
  memo_geocode w2 !! address =
    memo_geocode (fst (geocode_address address w)) !! address ->
  clock w2 < clock w + 3600 ->
  snd (geocode_address address w) = Ok (None, None) /\
  snd (geocode_address address w2) = Ok (None, None).
Proof.
  intros Hmiss Hfail Hkeep Hlt.
  destruct (geocode_failure_body address w Hfail) as (Hr & Hclk & _ & _).
  unfold geocode_address in *.
  rewrite cache_data_miss in * by exact Hmiss.
  destruct (geocode_address_body address w) as [w1 [v|e]];
    simpl in Hr; [|discriminate].
  inversion Hr; subst v. simpl in *.
  split; [reflexivity|].
  rewrite lookup_insert_eq in Hkeep.
  erewrite cache_data_hit by (try exact Hkeep; simpl; lia).
  reflexivity.
Qed.

Lemma on_calculate_after_geocoding address w w1 coords :
  address <> "" ->
  geocode_address address w = (w1, Ok coords) ->
  on_calculate true address w =
  (if coord_falsy (fst coords) || coord_falsy (snd coords)
   then let! _ := emit (st_error "Geocoding failed. Check address.") in
        st_stop
   else after_geocoding address) w1.
Proof.
  intros Hne Hgeo. apply String.eqb_neq in Hne.
  unfold on_calculate. rewrite Hne. simpl.
  unfold mbind at 1. rewrite Hgeo. reflexivity.
Qed.

(** X13: when the geocoder finds no coordinates, the handler reports
    'Geocoding failed. Check address.' as the last thing on the page and
    stops; no page has been requested. *)
Theorem failed_geocoding_stops_the_handler address w :
  address <> "" ->
  ~ has_live_entry 3600 (memo_geocode w) address (clock w) ->
  (forall lat lon, nominatim (clock w) address <> Ok (Some (lat, lon))) ->
  snd (on_calculate true address w) = Raise StopException /\
  requests (fst (on_calculate true address w)) = requests w /\
  exists shown,
    page (fst (on_calculate true address w)) =
    shown ++ [st_error "Geocoding failed. Check address."].
Proof.
  intros Hne Hmiss Hfail.
  destruct (geocode_failure_body address w Hfail) as (Hr & _ & Hreq & _).
  assert (Hgeo : exists w1,
             geocode_address address w = (w1, Ok (None, None)) /\
             requests w1 = requests w).
  { unfold geocode_address. rewrite cache_data_miss by exact Hmiss.
    destruct (geocode_address_body address w) as [w1 [v|e]];
      simpl in Hr; [|discriminate].
    inversion Hr; subst v. eexists. split; [reflexivity|]. exact Hreq. }
  destruct Hgeo as (w1 & Hgeo & Hreq1).
  rewrite (on_calculate_after_geocoding address w w1 _ Hne Hgeo).
  simpl. split; [reflexivity|]. split; [exact Hreq1|].
  exists (page w1). reflexivity.
Qed.

(** X14: every fetch waits two seconds and sends exactly one request,
    whatever comes back.  A response with status 200 puts nothing on the
    page; any other status puts one error naming the URL and the status;
    an exception of the network is passed on as it is. *)
Theorem fetch_waits_logs_and_reports url w :
  clock (fst (fetch_zillow_page url w)) = clock w + 2 /\
  requests (fst (fetch_zillow_page url w)) = url :: requests w /\
  (forall response,
      requests_get (clock w + 2) url = Ok response ->
      status_code response = 200 ->
      page (fst (fetch_zillow_page url w)) = page w) /\
  (forall response,
      requests_get (clock w + 2) url = Ok response ->
      status_code response <> 200 ->
      page (fst (fetch_zillow_page url w)) =
      page w ++ [fetch_error url (status_code response)]) /\
  (forall e,
      requests_get (clock w + 2) url = Raise e ->
      snd (fetch_zillow_page url w) = Raise e /\
      page (fst (fetch_zillow_page url w)) = page w).
Proof.
  pose proof (fetch_zillow_page_world url w) as (Hreq & Hclk & _).
  pose proof (fetch_zillow_page_page url w) as Hpage.
  split; [exact Hclk|]. split; [exact Hreq|]. repeat split.
  - intros r Hr Hs. rewrite Hr, Hs in Hpage. exact Hpage.
  - intros r Hr Hs. rewrite Hr in Hpage. apply Z.eqb_neq in Hs.
    rewrite Hs in Hpage. exact Hpage.
  - rewrite H in Hpage. tauto.
  - rewrite H in Hpage. tauto.
Qed.

(** X15: a lookup that raises stores nothing: the memo is as it was, and
    the next lookup of the same address, whenever it comes, requests the
    page again. *)
Theorem raising_lookup_stores_nothing address w e w2 :
  ~ has_live_entry 3600 (memo_details w) address (clock w) ->
  snd (get_property_details address w) = Raise e ->
  memo_details w2 !! address = memo_details w !! address ->
  clock w <= clock w2 ->
  memo_details (fst (get_property_details address w)) = memo_details w /\
  requests (fst (get_property_details address w2)) =
  details_url address :: requests w2.
Proof.
  intros Hmiss Hraise Hkeep Hclk. split.
  - pose proof (get_property_details_body_world address w) as [_ Hd].
    unfold get_property_details in *.
    rewrite cache_data_miss in * by exact Hmiss.
    destruct (get_property_details_body address w) as [w1 [v|e1]];
      simpl in *; [discriminate | exact Hd].
  - pose proof (get_property_details_body_world address w2) as [Hreq _].
    unfold get_property_details. rewrite cache_data_miss.
    + destruct (get_property_details_body address w2) as [w3 [v|e1]];
        simpl in *; exact Hreq.
    + intros (entry & Hl & Ht). apply Hmiss. exists entry.
      rewrite <- Hkeep. split; [exact Hl | lia].
Qed.
End ScriptBehaviour.

Lemma failed_geocoding_is_remembered_witness :
  snd (@geocode_address env_late_geocoder "12 Oak St" world0)
  = Ok (None, None) /\
  snd (@geocode_address env_late_geocoder "12 Oak St"
         (later 2000
            (fst (@geocode_address env_late_geocoder "12 Oak St" world0))))
  = Ok (None, None).
Proof.
  apply (@failed_geocoding_is_remembered env_late_geocoder "12 Oak St" world0).
  - intros (entry & Hl & _). simpl in Hl. rewrite lookup_empty in Hl.
    discriminate.
  - intros lat lon. discriminate.
  - reflexivity.
  - vm_compute. reflexivity.
Defined.

Lemma failed_geocoding_stops_the_handler_witness :
  snd (@on_calculate env_late_geocoder true "12 Oak St" world0)
  = Raise StopException /\
  requests (fst (@on_calculate env_late_geocoder true "12 Oak St" world0))
  = requests world0 /\
  exists shown,
    page (fst (@on_calculate env_late_geocoder true "12 Oak St" world0)) =
    shown ++ [st_error "Geocoding failed. Check address."].
Proof.
  apply (@failed_geocoding_stops_the_handler env_late_geocoder "12 Oak St"
           world0).
  - discriminate.
  - intros (entry & Hl & _). simpl in Hl. rewrite lookup_empty in Hl.
    discriminate.
  - intros lat lon. discriminate.
Defined.

Lemma raising_lookup_stores_nothing_witness :
  memo_details (fst (@get_property_details env_offline "12 Oak St" world0))
  = memo_details world0 /\
  requests (fst (@get_property_details env_offline "12 Oak St"
                   (later 10 world0)))
  = @details_url env_offline "12 Oak St" :: requests (later 10 world0).
Proof.
  apply (@raising_lookup_stores_nothing env_offline "12 Oak St" world0
           RequestException (later 10 world0)).
  - intros (entry & Hl & _). simpl in Hl. rewrite lookup_empty in Hl.
    discriminate.
  - reflexivity.
  - reflexivity.
  - vm_compute. discriminate.
Defined.

Section ScriptPipeline.
Context {E : Env}.

Lemma coords_accepted lat lon :
  ftruthy lat = true -> ftruthy lon = true ->
  coord_falsy (Some lat) || coord_falsy (Some lon) = false.
Proof. intros H1 H2. simpl. rewrite H1, H2. reflexivity. Qed.

(** X16: an exception of the network is not turned into empty content.
    With the address geocoded and accepted, a request for the target
    page that raises makes the whole handler end with that exception. *)
Theorem network_failure_escapes_the_handler address w w1 lat lon e :
  address <> "" ->
  geocode_address address w = (w1, Ok (Some lat, Some lon)) ->
  ftruthy lat = true -> ftruthy lon = true ->
  ~ has_live_entry 3600 (memo_details w1) address (clock w1) ->
  requests_get (clock w1 + 2) (details_url address) = Raise e ->
  snd (on_calculate true address w) = Raise e.
Proof.
  intros Hne Hgeo Hlat Hlon Hmiss Hnet.
  rewrite (on_calculate_after_geocoding address w w1 _ Hne Hgeo).
  cbn [fst snd]. rewrite (coords_accepted lat lon Hlat Hlon).
  pose proof (get_property_details_body_result address w1) as Hb.
  rewrite fetch_zillow_page_result, Hnet in Hb.
  unfold after_geocoding, mbind at 1, get_property_details.
  rewrite cache_data_miss by exact Hmiss.
  destruct (get_property_details_body address w1) as [w2 [v|e1]];
    simpl in Hb; [discriminate|]. simpl. congruence.
Qed.

(** X17: the memo is kept per address and nothing is ever dropped from
    it.  A lookup of one address leaves the entry of every other address
    as it was, so a result stored for another address is still served,
    without a request, as long as it has not expired. *)
Theorem memo_is_per_address address other w entry :
  other <> address ->
  memo_details w !! other = Some entry ->
  clock (fst (get_property_details address w)) < stored_at entry + 3600 ->
  (forall key, is_Some (memo_details w !! key) ->
     is_Some (memo_details (fst (get_property_details address w)) !! key)) /\
  snd (get_property_details other (fst (get_property_details address w)))
  = Ok (memo_value entry) /\
  requests (fst (get_property_details other
                   (fst (get_property_details address w))))
  = requests (fst (get_property_details address w)).
Proof.
  intros Hne Hl Ht.
  destruct (get_property_details_frame address w) as (_ & _ & Ho & Hk).
  split; [exact Hk|].
  specialize (Ho other Hne). rewrite Hl in Ho.
  unfold get_property_details at 1 3.
  rewrite (cache_data_hit _ _ _ _ _ _ entry Ho Ht). simpl. auto.
Qed.




(** X19: when the target page comes back with a status other than 200,
    the handler stops after that one request, with the fetch error as
    the only thing added to the page; the comp search is not tried. *)
Theorem failed_target_fetch_stops address w w1 lat lon response :
  address <> "" ->
  geocode_address address w = (w1, Ok (Some lat, Some lon)) ->
  ftruthy lat = true -> ftruthy lon = true ->
  ~ has_live_entry 3600 (memo_details w1) address (clock w1) ->
  requests_get (clock w1 + 2) (details_url address) = Ok response ->
  status_code response <> 200 ->
  snd (on_calculate true address w) = Raise StopException /\
  requests (fst (on_calculate true address w)) =
    details_url address :: requests w1 /\
  page (fst (on_calculate true address w)) =
    page w1 ++ [fetch_error (details_url address) (status_code response)].
Proof.
  intros Hne Hgeo Hlat Hlon Hmiss Hnet Hst.
  assert (Hrun : exists w',
             on_calculate true address w = (w', Raise StopException) /\
             requests w' = details_url address :: requests w1 /\
             page w' = page w1 ++ [fetch_error (details_url address)
                                     (status_code response)]).
  { rewrite (on_calculate_after_geocoding address w w1 _ Hne Hgeo).
    cbn [fst snd]. rewrite (coords_accepted lat lon Hlat Hlon).
    pose proof (fetch_zillow_page_world (details_url address) w1)
      as (Hreq & _ & _).
    pose proof (fetch_zillow_page_page (details_url address) w1) as Hpage.
    pose proof (fetch_zillow_page_result (details_url address) w1) as Hres.
    rewrite Hnet in Hpage, Hres. apply Z.eqb_neq in Hst.
    rewrite Hst in Hpage, Hres.
    unfold after_geocoding, mbind at 1, get_property_details.
    rewrite cache_data_miss by exact Hmiss.
    unfold get_property_details_body, mbind, lift.
    destruct (fetch_zillow_page (details_url address) w1) as [wf [html|e]];
      simpl in Hres; [|discriminate].
    inversion Hres; subst html. simpl in *.
    eexists. split; [reflexivity|]. simpl. auto. }
  destruct Hrun as (w' & -> & Hreq & Hpage). simpl. auto.
Qed.

Lemma replace_char_removes a b s :
  a <> b -> ~ In a (chars (replace_char a b s)).
Proof.
  intros Hab. induction s as [|c s IH]; simpl; [tauto|].
  intros [H|H]; [|exact (IH H)].
  destruct (ascii_eqb c a) eqn:Eq.
  - congruence.
  - apply Ascii.eqb_neq in Eq. congruence.
Qed.

(** X20: the URL of the target page never contains a space, whatever the
    address and whatever [quote] made of it. *)
Theorem details_url_has_no_space address :
  ~ In " "%char (chars (details_url address)).
Proof.
  unfold details_url. rewrite chars_app. intros H.
  apply in_app_or in H. destruct H as [H|H].
  - vm_compute in H. intuition discriminate.
  - revert H. apply replace_char_removes. discriminate.
Qed.

(** X21: a target page fetched with status 200 from which a record can
    be read always yields that record; the 'partial details' warning is
    put on the page exactly when the bedroom count, the bathroom count
    or the square footage of the record is 0, and nothing else is put on
    the page. *)
Theorem partial_details_warn_and_return address w response d :
  requests_get (clock w + 2) (details_url address) = Ok response ->
  status_code response = 200 ->
  body response <> "" ->
  extract_details address (body response) = Ok d ->
  snd (get_property_details_body address w) = Ok (Some d) /\
  (beds d = 0 \/ baths d = 0 \/ sq_ft d = 0 ->
   page (fst (get_property_details_body address w)) =
   page w ++ [st_warning
                "Partial details fetched; some fields may be missing."]) /\
  (beds d <> 0 /\ baths d <> 0 /\ sq_ft d <> 0 ->
   page (fst (get_property_details_body address w)) = page w).
Proof.
  intros Hnet Hst Hbody Hd.
  assert (Hrun : exists w',
             get_property_details_body address w = (w', Ok (Some d)) /\
             page w' =
             page w ++
             (if partial_details d
              then [st_warning
                      "Partial details fetched; some fields may be missing."]
              else [])).
  { pose proof (fetch_zillow_page_page (details_url address) w) as Hpage.
    pose proof (fetch_zillow_page_result (details_url address) w) as Hres.
    rewrite Hnet, Hst in Hpage, Hres. simpl in Hpage, Hres.
    apply String.eqb_neq in Hbody.
    unfold get_property_details_body, mbind, lift, details_of_page.
    destruct (fetch_zillow_page (details_url address) w) as [wf [html|e]];
      simpl in Hres; [|discriminate].
    inversion Hres; subst html. simpl in Hpage.
    rewrite Hbody, Hd. simpl.
    destruct (partial_details d); simpl; eexists;
      (split; [reflexivity|]); simpl; rewrite Hpage;
      [reflexivity | rewrite app_nil_r; reflexivity]. }
  destruct Hrun as (w' & -> & Hpage). simpl. rewrite Hpage.
  unfold partial_details.
  split; [reflexivity|]. split.
  - intros [H|[H|H]]; rewrite H; simpl; rewrite ?andb_false_r; reflexivity.
  - intros (Hb & Hba & Hs). apply Z.eqb_neq in Hb, Hba, Hs.
    rewrite Hb, Hba, Hs. simpl. apply app_nil_r.
Qed.
End ScriptPipeline.

Lemma network_failure_escapes_the_handler_witness :
  snd (@on_calculate env_offline true "12 Oak St" world0)
  = Raise RequestException.
Proof.
  eapply (@network_failure_escapes_the_handler env_offline "12 Oak St"
            world0).
  - discriminate.
  - vm_compute; reflexivity.
  - reflexivity.
  - reflexivity.
  - intros (entry & Hl & _). vm_compute in Hl. discriminate.
  - reflexivity.
Defined.

Lemma memo_is_per_address_witness :
  exists entry,
    memo_details (fst (@get_property_details env_listing "7 Elm St" world0))
      !! "7 Elm St" = Some entry /\
    snd (@get_property_details env_listing "7 Elm St"
           (fst (@get_property_details env_listing "12 Oak St"
                   (fst (@get_property_details env_listing "7 Elm St"
                           world0)))))
    = Ok (memo_value entry).
Proof.
  eexists. split; [vm_compute; reflexivity|].
  eapply (@memo_is_per_address env_listing "12 Oak St" "7 Elm St").
  - discriminate.
  - vm_compute; reflexivity.
  - vm_compute; reflexivity.
Defined.


Lemma failed_target_fetch_stops_witness :
  exists w1,
    @geocode_address env_resolved_404 "12 Oak St" world0
    = (w1, Ok (Some (FFin 34.05), Some (FFin (-118.25)))) /\
    snd (@on_calculate env_resolved_404 true "12 Oak St" world0)
    = Raise StopException /\
    requests (fst (@on_calculate env_resolved_404 true "12 Oak St" world0)) =
      @details_url env_resolved_404 "12 Oak St" :: requests w1 /\
    page (fst (@on_calculate env_resolved_404 true "12 Oak St" world0)) =
      page w1 ++ [fetch_error (@details_url env_resolved_404 "12 Oak St")
                    404].
Proof.
  eexists. split; [vm_compute; reflexivity|].
  eapply (@failed_target_fetch_stops env_resolved_404 "12 Oak St" world0
            _ _ _ {| status_code := 404; body := "Not Found" |}).
  - discriminate.
  - vm_compute; reflexivity.
  - reflexivity.
  - reflexivity.
  - intros (entry & Hl & _). vm_compute in Hl. discriminate.
  - reflexivity.
  - discriminate.
Defined.

Lemma partial_details_warn_and_return_witness :
  exists d,
    extract_details "12 Oak St" page_listing = Ok d /\
    snd (@get_property_details_body env_listing "12 Oak St" world0)
    = Ok (Some d) /\
    (beds d <> 0 /\ baths d <> 0 /\ sq_ft d <> 0 ->
     page (fst (@get_property_details_body env_listing "12 Oak St" world0))
     = page world0).
Proof.
  eexists. split; [vm_compute; reflexivity|].
  edestruct (@partial_details_warn_and_return env_listing "12 Oak St" world0
               {| status_code := 200; body := page_listing |})
    as (Hr & _ & Hp).
  - reflexivity.
  - reflexivity.
  - vm_compute. discriminate.
  - vm_compute; reflexivity.
  - split; [exact Hr | exact Hp].
Defined.

(** ** Cards the loop cannot read *)







Example commas_only_price_raises :
  int_field_commas re_sold_price "Sold: $,,, 2025" = Raise ValueError.
Proof. vm_compute. reflexivity. Qed.
